(** * Elist waitlist bot: a shallow embedding of [src/bot.ts]

    The bot keeps two persistent tables (waitlists and subscribers, accessed
    through Prisma) and three in-memory structures (the set [verifiedUsers]
    and the maps [registrationMessages] and [pendingSubscriptions]).  Every
    command handler is modelled as a function on a [World] that holds the
    store, the in-memory registration state and the log of requests the bot
    issued to the chat transport.  Outcomes decided by the outside world
    (whether a DM probe is delivered, the id Telegram gives a posted reply,
    whether a reaction or a store call throws, whether the caller is a chat
    admin) are explicit arguments of the handlers.

    Store tables are lists in the order Prisma returns them; [findFirst]
    is the first row satisfying the [where] filter.  Strings are ASCII
    strings; the JavaScript [\s] class and [toLowerCase] are modelled on
    their ASCII part. *)

From Stdlib Require Import ZArith String Ascii List Bool.
From stdpp Require Import base gmap strings list pretty.
Import ListNotations.
Open Scope Z_scope.

(** ** Persistent data (Prisma models [Waitlist] and [Subscriber]) *)

Record Waitlist := {
  wl_id : Z;
  name : string;
  chatId : Z;
  ownerUsername : string
}.

Record Subscriber := {
  sub_id : Z;
  waitlistId : Z;
  userId : Z;
  username : string
}.

Record Store := {
  waitlists : list Waitlist;
  subscribers : list Subscriber;
  next_wl_id : Z;   (* SERIAL counters of the two tables *)
  next_sub_id : Z
}.

(** ** In-memory registration state *)

Record MsgInfo := { mi_messageId : Z; mi_chatId : Z }.

Record PendingSub := {
  ps_productName : string;
  ps_messageId : Z;
  ps_chatId : Z
}.

(** User ids are the map keys; [userId.toString()] is injective on the
    integer ids, so keying by the integer is the same map. *)
Record Reg := {
  verifiedUsers : gset Z;
  registrationMessages : gmap Z MsgInfo;
  pendingSubscriptions : gmap Z PendingSub
}.

(** ** Requests to the chat transport *)

Inductive DMKind := ProbeDM | BroadcastDM.

Inductive ReplyKind :=
| UsageReply
| WaitlistNotFound
| AlreadySubscribed
| RegistrationPrompt
| SubscribedFallback
| RemovedFallback
| WelcomeReply
| GroupHiReply
| BroadcastDMOnly
| NoOwnedWaitlist
| OnlyOwner
| BroadcastSent (n : nat)
| OnlyAdmins
| WaitlistExists
| WaitlistOpened
| NeedUsername
| CloseForbidden
| WaitlistClosed.

Inductive Effect :=
| SendDM (user : Z) (k : DMKind)
| Reply (chat : Z) (k : ReplyKind)
| DeleteMessage (chat msg : Z)
| SetReaction (chat msg : Z).

Record World := {
  store : Store;
  reg : Reg;
  effects : list Effect
}.

(** The incoming update: [ctx.from], [ctx.chat] and [ctx.message]. *)
Record Ctx := {
  from_id : Z;
  from_username : option string;
  chat_id : Z;
  chat_private : bool;     (* ctx.chat.type === 'private' *)
  message_id : Z
}.

(** ** World updates *)

Definition emit (e : Effect) (w : World) : World :=
  {| store := store w; reg := reg w; effects := effects w ++ [e] |}.

Definition set_reg (r : Reg) (w : World) : World :=
  {| store := store w; reg := r; effects := effects w |}.

Definition set_store (s : Store) (w : World) : World :=
  {| store := s; reg := reg w; effects := effects w |}.

Definition add_verified (u : Z) (w : World) : World :=
  set_reg {| verifiedUsers := {[u]} ∪ verifiedUsers (reg w);
             registrationMessages := registrationMessages (reg w);
             pendingSubscriptions := pendingSubscriptions (reg w) |} w.

Definition set_regmsg (u : Z) (mi : MsgInfo) (w : World) : World :=
  set_reg {| verifiedUsers := verifiedUsers (reg w);
             registrationMessages := <[u := mi]> (registrationMessages (reg w));
             pendingSubscriptions := pendingSubscriptions (reg w) |} w.

Definition del_regmsg (u : Z) (w : World) : World :=
  set_reg {| verifiedUsers := verifiedUsers (reg w);
             registrationMessages := delete u (registrationMessages (reg w));
             pendingSubscriptions := pendingSubscriptions (reg w) |} w.

Definition set_pending (u : Z) (ps : PendingSub) (w : World) : World :=
  set_reg {| verifiedUsers := verifiedUsers (reg w);
             registrationMessages := registrationMessages (reg w);
             pendingSubscriptions := <[u := ps]> (pendingSubscriptions (reg w)) |} w.

Definition del_pending (u : Z) (w : World) : World :=
  set_reg {| verifiedUsers := verifiedUsers (reg w);
             registrationMessages := registrationMessages (reg w);
             pendingSubscriptions := delete u (pendingSubscriptions (reg w)) |} w.

(** ** Store queries (Prisma) *)

Definition findFirst {A} (p : A -> bool) (l : list A) : option A := List.find p l.

(** [prisma.waitlist.findFirst({ where: { name, chatId } })] *)
Definition findWaitlist (nm : string) (chat : Z) (s : Store) : option Waitlist :=
  findFirst (fun wl => String.eqb (name wl) nm && Z.eqb (chatId wl) chat) (waitlists s).

(** [prisma.subscriber.findFirst({ where: { waitlistId, userId } })] *)
Definition findSubscriber (wid u : Z) (s : Store) : option Subscriber :=
  findFirst (fun sb => Z.eqb (waitlistId sb) wid && Z.eqb (userId sb) u) (subscribers s).

(** [prisma.subscriber.create({ data: { waitlistId, userId, username } })] *)
Definition createSubscriber (wid u : Z) (un : string) (s : Store) : Store :=
  {| waitlists := waitlists s;
     subscribers := subscribers s ++
        [{| sub_id := next_sub_id s; waitlistId := wid; userId := u; username := un |}];
     next_wl_id := next_wl_id s;
     next_sub_id := next_sub_id s + 1 |}.

(** [prisma.subscriber.deleteMany({ where })] with a row filter. *)
Definition deleteSubscribers (p : Subscriber -> bool) (s : Store) : Store :=
  {| waitlists := waitlists s;
     subscribers := List.filter (fun sb => negb (p sb)) (subscribers s);
     next_wl_id := next_wl_id s;
     next_sub_id := next_sub_id s |}.

(** ** String helpers: [args.join(' ')] and [ctx.from.username || ''] *)

Fixpoint join (sep : string) (l : list string) : string :=
  match l with
  | [] => EmptyString
  | [x] => x
  | x :: r => x ++ sep ++ join sep r
  end.

Definition or_empty (o : option string) : string :=
  match o with Some s => s | None => EmptyString end.

(** JavaScript truthiness of an optional string ([!fromUsername]). *)
Definition truthy (o : option string) : bool :=
  match o with Some s => negb (String.eqb s EmptyString) | None => false end.

(** ** Registration gate: [checkUserRegistration] *)

(** How the silent probe DM ended: delivered, refused with Telegram's
    "can't initiate conversation" description, or any other error. *)
Inductive ProbeOutcome := Delivered | CannotInitiate | OtherFailure.

(** Transport outcomes seen by one subscribe update.  [prompt_reply] is the
    message id of the posted registration prompt, [None] when [ctx.reply]
    throws. *)
Record Transport := {
  probe : ProbeOutcome;
  prompt_reply : option Z;
  reaction_ok : bool
}.

(** The expiry timer is not part of the state: its callback is the event
    [expire] below, which re-reads [registrationMessages] when it fires. *)
Definition checkUserRegistration (c : Ctx) (t : Transport) (w : World) : bool * World :=
  let u := from_id c in
  if decide (u ∈ verifiedUsers (reg w)) then (true, w)
  else match registrationMessages (reg w) !! u with
  | Some _ => (false, w)
  | None =>
      let w1 := emit (SendDM u ProbeDM) w in
      match probe t with
      | Delivered => (true, add_verified u w1)
      | CannotInitiate =>
          match prompt_reply t with
          | Some mid =>
              (false, set_regmsg u {| mi_messageId := mid; mi_chatId := chat_id c |}
                        (emit (Reply (chat_id c) RegistrationPrompt) w1))
          | None => (false, w1)
          end
      | OtherFailure => (false, w1)
      end
  end.

(** The 👍 reaction with its textual fallback. *)
Definition react_or_reply (c : Ctx) (fallback : ReplyKind) (ok : bool) (w : World) : World :=
  let w1 := emit (SetReaction (chat_id c) (message_id c)) w in
  if ok then w1 else emit (Reply (chat_id c) fallback) w1.

(** Common tail of both subscribe handlers, from the duplicate check on:
    [pname] is what is stored in the pending subscription. *)
Definition subscribe_tail (c : Ctx) (wl : Waitlist) (pname : string) (t : Transport)
    (w : World) : World :=
  let u := from_id c in
  match findSubscriber (wl_id wl) u (store w) with
  | Some _ => emit (Reply (chat_id c) AlreadySubscribed) w
  | None =>
      let '(canReceiveDMs, w1) :=
        if chat_private c then (true, w) else checkUserRegistration c t w in
      if canReceiveDMs then
        react_or_reply c SubscribedFallback (reaction_ok t)
          (set_store (createSubscriber (wl_id wl) u (or_empty (from_username c)) (store w1)) w1)
      else
        set_pending u {| ps_productName := pname; ps_messageId := message_id c;
                         ps_chatId := chat_id c |} w1
  end.

(** [bot.command('subscribe')]; [args] is [ctx.message.text.split(' ').slice(1)]. *)
Definition subscribe (c : Ctx) (args : list string) (t : Transport) (w : World) : World :=
  match args with
  | [] => emit (Reply (chat_id c) UsageReply) w
  | _ =>
      let productName := join " " args in
      match findWaitlist productName (chat_id c) (store w) with
      | None => emit (Reply (chat_id c) WaitlistNotFound) w
      | Some wl => subscribe_tail c wl productName t w
      end
  end.

(** ** Dynamic command [/subscribe_<name>] *)

Definition is_ws (a : ascii) : bool :=
  let n := nat_of_ascii a in
  ((9 <=? n) && (n <=? 13))%nat || (n =? 32)%nat.

(** JavaScript line terminators, not matched by [.] *)
Definition is_line_term (a : ascii) : bool :=
  let n := nat_of_ascii a in (n =? 10)%nat || (n =? 13)%nat.

Definition lower_ascii (a : ascii) : ascii :=
  let n := nat_of_ascii a in
  if ((65 <=? n) && (n <=? 90))%nat then ascii_of_nat (n + 32) else a.

Fixpoint toLowerCase (s : string) : string :=
  match s with
  | EmptyString => EmptyString
  | String a r => String (lower_ascii a) (toLowerCase r)
  end.

(** [s.replace(/\s+/g, '_')]: every maximal run of white space becomes one
    underscore; [in_run] says the previous character was white space. *)
Fixpoint replace_ws_runs (in_run : bool) (s : string) : string :=
  match s with
  | EmptyString => EmptyString
  | String a r =>
      if is_ws a then
        if in_run then replace_ws_runs true r
        else String "_" (replace_ws_runs true r)
      else String a (replace_ws_runs false r)
  end.

(** The command name a waitlist name generates, as compared by the handler:
    [w.name.replace(/\s+/g, '_').toLowerCase()]. *)
Definition sanitize (s : string) : string := toLowerCase (replace_ws_runs false s).

(** [commandName.replace(/_/g, ' ')] *)
Fixpoint underscores_to_spaces (s : string) : string :=
  match s with
  | EmptyString => EmptyString
  | String a r =>
      String (if Ascii.eqb a "_" then " "%char else a) (underscores_to_spaces r)
  end.

(** [match[1]] of [/^\/subscribe_(.+)/]: the characters after the prefix up
    to the first line terminator, at least one of them. *)
Fixpoint take_line (s : string) : string :=
  match s with
  | EmptyString => EmptyString
  | String a r => if is_line_term a then EmptyString else String a (take_line r)
  end.

Definition subscribe_prefix : string := "/subscribe_".

Definition match_dynamic (text : string) : option string :=
  if String.prefix subscribe_prefix text then
    match take_line (substring (String.length subscribe_prefix)
                       (String.length text) text) with
    | EmptyString => None
    | cmd => Some cmd
    end
  else None.

Definition is_mention_char (a : ascii) : bool :=
  let n := nat_of_ascii a in
  ((48 <=? n) && (n <=? 57))%nat || ((65 <=? n) && (n <=? 90))%nat
  || ((97 <=? n) && (n <=? 122))%nat || (n =? 95)%nat.

Fixpoint all_mention_chars (s : string) : bool :=
  match s with
  | EmptyString => true
  | String a r => is_mention_char a && all_mention_chars r
  end.

Fixpoint no_line_term (s : string) : bool :=
  match s with
  | EmptyString => true
  | String a r => negb (is_line_term a) && no_line_term r
  end.

(** [commandName.match(/^(.+?)@[a-zA-Z0-9_]+$/)]: the lazy group takes the
    shortest non-empty prefix [pre] such that the rest is ['@'] followed by
    a non-empty run of [[a-zA-Z0-9_]] reaching the end.  [pre] is the part
    already scanned. *)
Fixpoint mention_split (pre rest : string) : option string :=
  match rest with
  | EmptyString => None
  | String a r =>
      if negb (String.eqb pre EmptyString) && no_line_term pre && Ascii.eqb a "@"
         && negb (String.eqb r EmptyString) && all_mention_chars r
      then Some pre
      else mention_split (pre ++ String a EmptyString) r
  end.

Definition strip_mention (cmd : string) : string :=
  match mention_split EmptyString cmd with Some pre => pre | None => cmd end.

(** The two-phase lookup: exact name, then the first waitlist of the chat
    whose sanitized name equals the command. *)
Definition resolve_dynamic (commandName : string) (chat : Z) (s : Store) : option Waitlist :=
  match findWaitlist (underscores_to_spaces commandName) chat s with
  | Some wl => Some wl
  | None =>
      findFirst (fun wl => String.eqb (sanitize (name wl)) commandName)
        (List.filter (fun wl => Z.eqb (chatId wl) chat) (waitlists s))
  end.

(** [bot.hears(/^\/subscribe_(.+)/)]: [text] is [ctx.message.text]. *)
Definition subscribe_dynamic (c : Ctx) (text : string) (t : Transport) (w : World) : World :=
  match match_dynamic text with
  | None => w
  | Some m1 =>
      let commandName := strip_mention m1 in
      match resolve_dynamic commandName (chat_id c) (store w) with
      | None => emit (Reply (chat_id c) WaitlistNotFound) w
      | Some wl => subscribe_tail c wl (name wl) t w
      end
  end.

(** ** [bot.command('unsubscribe')] *)

Definition waitlist_of (sb : Subscriber) (s : Store) : option Waitlist :=
  findFirst (fun wl => Z.eqb (wl_id wl) (waitlistId sb)) (waitlists s).

Definition unsubscribe (c : Ctx) (args : list string) (react_ok : bool) (w : World) : World :=
  let u := from_id c in
  match args with
  | [] => emit (Reply (chat_id c) UsageReply) w
  | _ =>
      let productName := join " " args in
      let found :=
        if chat_private c then
          (* subscriber.findFirst({ where: { userId, waitlist: { name } },
                                    include: { waitlist: true } }) *)
          match findFirst (fun sb => Z.eqb (userId sb) u &&
                             match waitlist_of sb (store w) with
                             | Some wl => String.eqb (name wl) productName
                             | None => false
                             end) (subscribers (store w)) with
          | Some sb => waitlist_of sb (store w)
          | None => None
          end
        else findWaitlist productName (chat_id c) (store w) in
      match found with
      | None => emit (Reply (chat_id c) WaitlistNotFound) w
      | Some wl =>
          react_or_reply c RemovedFallback react_ok
            (set_store (deleteSubscribers
               (fun sb => Z.eqb (waitlistId sb) (wl_id wl) && Z.eqb (userId sb) u)
               (store w)) w)
      end
  end.

(** ** [bot.command('openwaitlist')] and [bot.command('closewaitlist')];
    [isAdmin] is the answer of [getChatMember]. *)

Fixpoint find_index {A} (p : A -> bool) (l : list A) : option nat :=
  match l with
  | [] => None
  | x :: r => if p x then Some O else option_map S (find_index p r)
  end.

Definition starts_with_at (s : string) : bool := String.prefix "@" s.

(** [arg.replace('@', '')] on an argument that starts with ['@']. *)
Definition drop_first_char (s : string) : string :=
  match s with EmptyString => EmptyString | String _ r => r end.

Definition createWaitlist (nm : string) (chat : Z) (owner : string) (s : Store) : Store :=
  {| waitlists := waitlists s ++
       [{| wl_id := next_wl_id s; name := nm; chatId := chat; ownerUsername := owner |}];
     subscribers := subscribers s;
     next_wl_id := next_wl_id s + 1;
     next_sub_id := next_sub_id s |}.

Definition deleteWaitlist (wid : Z) (s : Store) : Store :=
  {| waitlists := List.filter (fun wl => negb (Z.eqb (wl_id wl) wid)) (waitlists s);
     subscribers := subscribers s;
     next_wl_id := next_wl_id s;
     next_sub_id := next_sub_id s |}.

Definition openwaitlist (c : Ctx) (args : list string) (isAdmin : bool) (w : World) : World :=
  if negb isAdmin then emit (Reply (chat_id c) OnlyAdmins) w
  else match find_index starts_with_at args with
  | None => emit (Reply (chat_id c) UsageReply) w
  | Some atIndex =>
      if (length args <? 2)%nat then emit (Reply (chat_id c) UsageReply) w
      else
        let productName := join " " (firstn atIndex args) in
        let targetUsername := drop_first_char (nth atIndex args EmptyString) in
        match findWaitlist productName (chat_id c) (store w) with
        | Some _ => emit (Reply (chat_id c) WaitlistExists) w
        | None =>
            emit (Reply (chat_id c) WaitlistOpened)
              (set_store (createWaitlist productName (chat_id c) targetUsername (store w)) w)
        end
  end.

Definition closewaitlist (c : Ctx) (args : list string) (isAdmin : bool) (w : World) : World :=
  if negb (truthy (from_username c)) then emit (Reply (chat_id c) NeedUsername) w
  else match args with
  | [] => emit (Reply (chat_id c) UsageReply) w
  | _ =>
      let productName := join " " args in
      match findWaitlist productName (chat_id c) (store w) with
      | None => emit (Reply (chat_id c) WaitlistNotFound) w
      | Some wl =>
          let isOwner := String.eqb (ownerUsername wl) (or_empty (from_username c)) in
          if negb isOwner && negb isAdmin then emit (Reply (chat_id c) CloseForbidden) w
          else
            emit (Reply (chat_id c) WaitlistClosed)
              (set_store (deleteWaitlist (wl_id wl)
                 (deleteSubscribers (fun sb => Z.eqb (waitlistId sb) (wl_id wl)) (store w))) w)
      end
  end.

(** ** [bot.command('broadcast')] *)

(** [prisma.waitlist.findFirst({ where: { name, ownerUsername: fromUsername } })]:
    Prisma ignores a filter field whose value is [undefined], so with no
    username only the name is filtered. *)
Definition findOwnedWaitlist (p : string) (owner : option string) (s : Store) : option Waitlist :=
  findFirst (fun wl => String.eqb (name wl) p &&
               match owner with
               | Some o => String.eqb (ownerUsername wl) o
               | None => true
               end) (waitlists s).

(** [prisma.subscriber.findMany({ where: { waitlistId } })] *)
Definition subscribersOf (wid : Z) (s : Store) : list Subscriber :=
  List.filter (fun sb => Z.eqb (waitlistId sb) wid) (subscribers s).

(** The send loop; [fails i] says whether the [i]-th [sendMessage] throws.
    Returns [sentCount], [failedUsers] and the world. *)
Fixpoint send_loop (fails : nat -> bool) (i : nat) (subs : list Subscriber)
    (sentCount : nat) (failedUsers : list Z) (w : World) : nat * list Z * World :=
  match subs with
  | [] => (sentCount, failedUsers, w)
  | sb :: r =>
      let w1 := emit (SendDM (userId sb) BroadcastDM) w in
      if fails i then send_loop fails (S i) r sentCount (failedUsers ++ [userId sb]) w1
      else send_loop fails (S i) r (S sentCount) failedUsers w1
  end.

Definition broadcast (c : Ctx) (args : list string) (fails : nat -> bool) (w : World) : World :=
  let fromUsername := from_username c in
  if negb (chat_private c) then emit (Reply (chat_id c) BroadcastDMOnly) w
  else match args with
  | productName :: _ :: _ =>
      match findOwnedWaitlist productName fromUsername (store w) with
      | None => emit (Reply (chat_id c) NoOwnedWaitlist) w
      | Some wl =>
          if negb (truthy fromUsername)
             || negb (String.eqb (ownerUsername wl) (or_empty fromUsername))
          then emit (Reply (chat_id c) OnlyOwner) w
          else
            let subs := subscribersOf (wl_id wl) (store w) in
            let '(sentCount, _, w1) := send_loop fails O subs O [] w in
            emit (Reply (chat_id c) (BroadcastSent sentCount)) w1
      end
  | _ => emit (Reply (chat_id c) UsageReply) w
  end.

(** ** [bot.start] and the expiry callback *)

(** Which store call of the deferred completion throws, if any. *)
Inductive StoreFault := NoFault | FailFindWaitlist | FailFindSubscriber | FailCreate.

(** The [try] block of [bot.start] that completes a pending subscription.
    A throwing store call jumps to the [catch], which only logs; the
    reaction's own failure is caught the same way and changes nothing. *)
Definition complete_pending (c : Ctx) (ps : PendingSub) (f : StoreFault) (w : World) : World :=
  let u := from_id c in
  let react (w' : World) := emit (SetReaction (ps_chatId ps) (ps_messageId ps)) w' in
  match f with
  | FailFindWaitlist => w
  | _ =>
      match findWaitlist (ps_productName ps) (ps_chatId ps) (store w) with
      | None => react w
      | Some wl =>
          match f with
          | FailFindSubscriber => w
          | _ =>
              match findSubscriber (wl_id wl) u (store w) with
              | Some _ => react w
              | None =>
                  match f with
                  | FailCreate => w
                  | _ => react (set_store (createSubscriber (wl_id wl) u
                                  (or_empty (from_username c)) (store w)) w)
                  end
              end
          end
      end
  end.

Definition start (c : Ctx) (f : StoreFault) (w : World) : World :=
  let u := from_id c in
  if chat_private c then
    let w1 := add_verified u w in
    let w2 := match registrationMessages (reg w1) !! u with
              | Some mi => del_regmsg u (emit (DeleteMessage (mi_chatId mi) (mi_messageId mi)) w1)
              | None => w1
              end in
    let w3 := match pendingSubscriptions (reg w2) !! u with
              | Some ps => del_pending u (complete_pending c ps f w2)
              | None => w2
              end in
    emit (Reply (chat_id c) WelcomeReply) w3
  else emit (Reply (chat_id c) GroupHiReply) w.

(** The [setTimeout] callback scheduled with a prompt for user [u];
    [del_ok] says whether [deleteMessage] succeeded. *)
Definition expire (u : Z) (del_ok : bool) (w : World) : World :=
  match registrationMessages (reg w) !! u with
  | Some mi =>
      let w1 := emit (DeleteMessage (mi_chatId mi) (mi_messageId mi)) w in
      if del_ok then del_pending u (del_regmsg u w1)
      else (* catch: clear both entries anyway *) del_pending u (del_regmsg u w1)
  | None => w
  end.

(** ** The bot as a step function over updates and timer firings *)

Inductive Event :=
| EvSubscribe (c : Ctx) (args : list string) (t : Transport)
| EvSubscribeDynamic (c : Ctx) (text : string) (t : Transport)
| EvUnsubscribe (c : Ctx) (args : list string) (react_ok : bool)
| EvOpenWaitlist (c : Ctx) (args : list string) (isAdmin : bool)
| EvCloseWaitlist (c : Ctx) (args : list string) (isAdmin : bool)
| EvBroadcast (c : Ctx) (args : list string) (fails : nat -> bool)
| EvStart (c : Ctx) (f : StoreFault)
| EvExpire (u : Z) (del_ok : bool).

Definition step (w : World) (e : Event) : World :=
  match e with
  | EvSubscribe c args t => subscribe c args t w
  | EvSubscribeDynamic c text t => subscribe_dynamic c text t w
  | EvUnsubscribe c args ok => unsubscribe c args ok w
  | EvOpenWaitlist c args a => openwaitlist c args a w
  | EvCloseWaitlist c args a => closewaitlist c args a w
  | EvBroadcast c args fails => broadcast c args fails w
  | EvStart c f => start c f w
  | EvExpire u ok => expire u ok w
  end.

Definition run (evs : list Event) (w : World) : World := fold_left step evs w.

Definition empty_store : Store :=
  {| waitlists := []; subscribers := []; next_wl_id := 1; next_sub_id := 1 |}.

Definition empty_world : World :=
  {| store := empty_store;
     reg := {| verifiedUsers := ∅; registrationMessages := ∅; pendingSubscriptions := ∅ |};
     effects := [] |}.

(** * Read-only commands and text helpers *)

(** ** Text helpers *)

(** The one-character strings for a line feed and a double quote, and the
    backslash character. *)
Definition nl : string := String (Ascii.ascii_of_nat 10) EmptyString.
Definition backslash : ascii := Ascii.ascii_of_nat 92.

(** The characters of the class [[_*[\]()~`>#+=|{}.!-]]. *)
Definition md_specials : list ascii := list_ascii_of_string "_*[]()~`>#+=|{}.!-".

Definition is_md_special (a : ascii) : bool := existsb (fun b => Ascii.eqb b a) md_specials.

(** [escapeMarkdown(text)], that is
    [text.replace(/[_*[\]()~`>#+=|{}.!-]/g, '\\$&')]: a backslash before
    every character of the class.  The class holds ASCII characters only,
    so replacing on the UTF-8 bytes of the text is replacing on its UTF-16
    code units. *)
Fixpoint escapeMarkdown (text : string) : string :=
  match text with
  | EmptyString => EmptyString
  | String a r =>
      if is_md_special a then String backslash (String a (escapeMarkdown r))
      else String a (escapeMarkdown r)
  end.

(** [s.split(' ')]: the pieces between single spaces, empty ones included;
    [''.split(' ')] is [['']]. *)
Fixpoint split_sp (s : string) : list string :=
  match s with
  | EmptyString => [EmptyString]
  | String a r =>
      let rest := split_sp r in
      if Ascii.eqb a " " then EmptyString :: rest
      else match rest with
           | x :: xs => String a x :: xs
           | [] => [String a EmptyString]
           end
  end.

(** [ctx.message.text.split(' ').slice(1)], the [args] of every command
    handler. *)
Definition command_args (text : string) : list string := tl (split_sp text).

(** ** [bot.command('listwaitlists')]: the text of the reply *)




(** ** [bot.command('list')]: the text of the reply *)




(** ** [bot.command('mywaitlists')]: the text of the reply *)

(** How [ctx.telegram.getChat] answers for the chat of a waitlist. *)
Inductive ChatLookup :=
| ChatGroup (title : option string)     (* type 'group' or 'supergroup' *)
| ChatChannel (title : option string)
| ChatOtherType
| ChatLookupFailed.

Definition chat_name (chat : Z) (r : ChatLookup) : string :=
  match r with
  | ChatGroup t => if truthy t then or_empty t else "Group " ++ pretty chat
  | ChatChannel t => if truthy t then or_empty t else "Channel " ++ pretty chat
  | ChatOtherType | ChatLookupFailed => "Chat " ++ pretty chat
  end.

(** [prisma.subscriber.findMany({ where: { userId }, include: { waitlist: true } })],
    with [where.waitlist = { chatId }] when [chat] is given: the waitlists
    of the user's rows, in the order of the rows. *)
Definition user_subscriptions (u : Z) (chat : option Z) (s : Store) : list Waitlist :=
  flat_map (fun sb =>
      if Z.eqb (userId sb) u then
        match waitlist_of sb s with
        | Some wl =>
            match chat with
            | Some ch => if Z.eqb (chatId wl) ch then [wl] else []
            | None => [wl]
            end
        | None => []
        end
      else []) (subscribers s).

(** [lookup] gives the answer of [getChat] for each chat id. *)
Definition mywaitlists (c : Ctx) (lookup : Z -> ChatLookup) (s : Store) : string :=
  let u := from_id c in
  if chat_private c then
    match user_subscriptions u None s with
    | [] => "📝 You are not subscribed to any waitlists."
    | subs =>
        fold_left (fun message wl => (
            message ++ "• **" ++ escapeMarkdown (name wl) ++ "**" ++ nl
                    ++ "  Owner: @" ++ escapeMarkdown (ownerUsername wl) ++ nl
                    ++ "  Group: " ++ chat_name (chatId wl) (lookup (chatId wl)) ++ nl ++ nl)%string)
          subs (("📝 **All Your Waitlists:**" ++ nl ++ nl)%string)
    end
  else
    match user_subscriptions u (Some (chat_id c)) s with
    | [] => "📝 You are not subscribed to any waitlists in this chat."
    | subs =>
        fold_left (fun message wl => (
            message ++ "• **" ++ escapeMarkdown (name wl) ++ "**" ++ nl
                    ++ "  Owner: @" ++ escapeMarkdown (ownerUsername wl) ++ nl ++ nl)%string)
          subs (("📝 **Your Waitlists in This Chat:**" ++ nl ++ nl)%string)
    end.

(** * Specification-side definitions *)

(** Users whose subscribe updates are replayed by a run. *)
Definition subscribes_as (u : Z) (e : Event) : Prop :=
  match e with
  | EvSubscribe c _ _ | EvSubscribeDynamic c _ _ => from_id c = u
  | _ => False
  end.

(** The table is unchanged, or one row for user [u] is appended after a
    duplicate check that found no row for its (waitlist, user) pair. *)
Definition adds_row (u : Z) (s s' : Store) : Prop :=
  subscribers s' = subscribers s \/
  exists r, userId r = u /\ findSubscriber (waitlistId r) u s = None /\
            subscribers s' = subscribers s ++ [r].

(** The table is unchanged or filtered by a [deleteMany]. *)
Definition removes_rows (s s' : Store) : Prop :=
  subscribers s' = subscribers s \/
  exists p : Subscriber -> bool, subscribers s' = List.filter p (subscribers s).

(** Rows of the (waitlist, user) pair [(wid, u)]. *)
Definition pair_rows (wid u : Z) (s : Store) : list Subscriber :=
  List.filter (fun sb => Z.eqb (waitlistId sb) wid && Z.eqb (userId sb) u) (subscribers s).

Definition unique_pairs (s : Store) : Prop :=
  List.NoDup (map (fun sb => (waitlistId sb, userId sb)) (subscribers s)).

(** Whether the deferred completion of [ps] in [/start] reaches the store
    call that [f] makes throw. *)
Definition completion_throws (c : Ctx) (ps : PendingSub) (f : StoreFault) (s : Store) : bool :=
  match f with
  | NoFault => false
  | FailFindWaitlist => true
  | FailFindSubscriber =>
      match findWaitlist (ps_productName ps) (ps_chatId ps) s with
      | Some _ => true
      | None => false
      end
  | FailCreate =>
      match findWaitlist (ps_productName ps) (ps_chatId ps) s with
      | Some wl =>
          match findSubscriber (wl_id wl) (from_id c) s with
          | Some _ => false
          | None => true
          end
      | None => false
      end
  end.

(** The row the deferred completion adds when no store call throws: one
    row iff the waitlist is found and the user has no row for it yet. *)
Definition completion_rows (c : Ctx) (ps : PendingSub) (s : Store) : list Subscriber :=
  match findWaitlist (ps_productName ps) (ps_chatId ps) s with
  | Some wl =>
      match findSubscriber (wl_id wl) (from_id c) s with
      | None => [{| sub_id := next_sub_id s; waitlistId := wl_id wl; userId := from_id c;
                    username := or_empty (from_username c) |}]
      | Some _ => []
      end
  | None => []
  end.

(** The deletion request [/start] issues for an outstanding prompt. *)
Definition prompt_cleanup (r : Reg) (u : Z) : list Effect :=
  match registrationMessages r !! u with
  | Some mi => [DeleteMessage (mi_chatId mi) (mi_messageId mi)]
  | None => []
  end.

(** Whether [s] contains the character [a]. *)
Fixpoint has_char (a : ascii) (s : string) : bool :=
  match s with
  | EmptyString => false
  | String b r => Ascii.eqb b a || has_char a r
  end.

(** Number of characters of [s] in the class escaped by [escapeMarkdown]. *)
Fixpoint md_special_count (s : string) : nat :=
  match s with
  | EmptyString => O
  | String a r => ((if is_md_special a then 1 else 0) + md_special_count r)%nat
  end.

(** Every character of [s] in the class is directly preceded by a
    backslash; [prev] is the character before [s]. *)
Fixpoint specials_escaped (prev : ascii) (s : string) : bool :=
  match s with
  | EmptyString => true
  | String a r => (negb (is_md_special a) || Ascii.eqb prev backslash) && specials_escaped a r
  end.

(** No two waitlists of one chat share a name. *)
Definition names_unique (s : Store) : Prop :=
  List.NoDup (map (fun wl => (name wl, chatId wl)) (waitlists s)).

(** Every subscriber row references a stored waitlist. *)
Definition rows_linked (s : Store) : Prop :=
  forall sb, In sb (subscribers s) -> exists wl, In wl (waitlists s) /\ wl_id wl = waitlistId sb.





(** The row [createSubscriber] appends for user [c] and waitlist [wl]. *)
Definition new_row (c : Ctx) (wl : Waitlist) (s : Store) : Subscriber :=
  {| sub_id := next_sub_id s; waitlistId := wl_id wl; userId := from_id c;
     username := or_empty (from_username c) |}.

(** ** The scenario of the spec: waitlist "Launch" opened in group [-100]
    for @alice; user 7 has never talked to the bot. *)

Definition demo_group : Z := -100.

Definition demo_admin : Ctx :=
  {| from_id := 1; from_username := Some "root"; chat_id := demo_group;
     chat_private := false; message_id := 10 |}.

Definition demo_user_group : Ctx :=
  {| from_id := 7; from_username := Some "uu"; chat_id := demo_group;
     chat_private := false; message_id := 11 |}.

Definition demo_user_dm : Ctx :=
  {| from_id := 7; from_username := Some "uu"; chat_id := 7;
     chat_private := true; message_id := 12 |}.

Definition demo_opened : World := openwaitlist demo_admin ["Launch"; "@alice"] true empty_world.

Definition probe_refused : Transport :=
  {| probe := CannotInitiate; prompt_reply := Some 50; reaction_ok := true |}.

Definition probe_other_error : Transport :=
  {| probe := OtherFailure; prompt_reply := None; reaction_ok := true |}.

Definition demo_prompted : World := subscribe demo_user_group ["Launch"] probe_refused demo_opened.

(** The row [openwaitlist] creates for "Launch". *)
Definition demo_launch : Waitlist :=
  {| wl_id := 1; name := "Launch"; chatId := demo_group; ownerUsername := "alice" |}.

(** User 7 answers the prompt with /start: the subscription is completed. *)
Definition demo_subscribed : World := start demo_user_dm NoFault demo_prompted.

Definition demo_owner_dm : Ctx :=
  {| from_id := 2; from_username := Some "alice"; chat_id := 2;
     chat_private := true; message_id := 20 |}.

Definition demo_anon_dm : Ctx :=
  {| from_id := 8; from_username := None; chat_id := 8;
     chat_private := true; message_id := 30 |}.

(** A second group [-200] with its own "Launch", and user 7, whose probe
    DMs are delivered, subscribed to both. *)
Definition demo_group2 : Z := -200.

Definition demo_admin2 : Ctx :=
  {| from_id := 1; from_username := Some "root"; chat_id := demo_group2;
     chat_private := false; message_id := 13 |}.

Definition demo_user_group2 : Ctx :=
  {| from_id := 7; from_username := Some "uu"; chat_id := demo_group2;
     chat_private := false; message_id := 14 |}.

Definition probe_ok : Transport :=
  {| probe := Delivered; prompt_reply := None; reaction_ok := true |}.

Definition demo_two_launches : World :=
  run [EvOpenWaitlist demo_admin ["Launch"; "@alice"] true;
       EvOpenWaitlist demo_admin2 ["Launch"; "@alice"] true;
       EvSubscribe demo_user_group ["Launch"] probe_ok;
       EvSubscribe demo_user_group2 ["Launch"] probe_ok] empty_world.

(** A session mixing the handlers: two subscribes of the same user to the
    same waitlist around a completed registration, a dynamic subscribe, an
    unsubscribe and an expiry. *)
Definition demo_events : list Event :=
  [EvOpenWaitlist demo_admin ["Launch"; "@alice"] true;
   EvSubscribe demo_user_group ["Launch"] probe_refused;
   EvStart demo_user_dm NoFault;
   EvSubscribe demo_user_group ["Launch"] probe_refused;
   EvSubscribeDynamic demo_user_group "/subscribe_launch" probe_refused;
   EvUnsubscribe demo_user_dm ["Launch"] true;
   EvSubscribeDynamic demo_user_group "/subscribe_launch" probe_refused;
   EvExpire 7 true].

(** * Properties *)

(** ** Basic facts about the world updates *)

Lemma world_eta (w : World) : {| store := store w; reg := reg w; effects := effects w |} = w.
Proof. by destruct w. Qed.

Lemma checkUserRegistration_store c t w :
  store (snd (checkUserRegistration c t w)) = store w.
Proof.
  unfold checkUserRegistration.
  case_decide; [done|].
  destruct (registrationMessages (reg w) !! from_id c); [done|].
  destruct (probe t); [done| |done].
  by destruct (prompt_reply t).
Qed.

Lemma checkUserRegistration_pending c t w :
  pendingSubscriptions (reg (snd (checkUserRegistration c t w))) = pendingSubscriptions (reg w).
Proof.
  unfold checkUserRegistration.
  case_decide; [done|].
  destruct (registrationMessages (reg w) !! from_id c); [done|].
  destruct (probe t); [done| |done].
  by destruct (prompt_reply t).
Qed.

(** ** C9 *)

(** C9: [checkUserRegistration] short-circuits.  A verified user gets
    [true] and a world left exactly as it was (no probe DM, nothing sent);
    an unverified user with an outstanding registration prompt gets [false],
    again with nothing sent and nothing changed. *)
Theorem checkUserRegistration_short_circuit (c : Ctx) (t : Transport) (w : World) :
  (from_id c ∈ verifiedUsers (reg w) -> checkUserRegistration c t w = (true, w)) /\
  (from_id c ∉ verifiedUsers (reg w) ->
   is_Some (registrationMessages (reg w) !! from_id c) ->
   checkUserRegistration c t w = (false, w)).
Proof.
  unfold checkUserRegistration. split.
  - intros H. by rewrite decide_True.
  - intros Hn [mi Hmi]. rewrite decide_False by done. by rewrite Hmi.
Qed.

(** ** C4 *)

Lemma expire_pending_other u v ok w :
  pendingSubscriptions (reg (expire u ok w)) !! v =
  if decide (u = v) then
    match registrationMessages (reg w) !! u with
    | Some _ => None
    | None => pendingSubscriptions (reg w) !! v
    end
  else pendingSubscriptions (reg w) !! v.
Proof.
  unfold expire. case_decide as Huv.
  - subst v. destruct (registrationMessages (reg w) !! u); [|done].
    destruct ok; cbn; by rewrite lookup_delete_eq.
  - destruct (registrationMessages (reg w) !! u); [|done].
    destruct ok; cbn; by rewrite lookup_delete_ne.
Qed.

(** ** How each handler changes the subscriber table *)

Lemma gate_result c t w b w1 :
  (if chat_private c then (true, w) else checkUserRegistration c t w) = (b, w1) ->
  store w1 = store w /\ pendingSubscriptions (reg w1) = pendingSubscriptions (reg w).
Proof.
  destruct (chat_private c).
  - intros H. by inversion H.
  - intros H. pose proof (checkUserRegistration_store c t w) as Hs.
    pose proof (checkUserRegistration_pending c t w) as Hp.
    rewrite H in Hs, Hp. by split.
Qed.

Lemma react_or_reply_store c k ok w : store (react_or_reply c k ok w) = store w.
Proof. unfold react_or_reply. by destruct ok. Qed.

Lemma react_or_reply_reg c k ok w : reg (react_or_reply c k ok w) = reg w.
Proof. unfold react_or_reply. by destruct ok. Qed.

Lemma subscribe_tail_shape c wl pn t w :
  adds_row (from_id c) (store w) (store (subscribe_tail c wl pn t w)) /\
  (forall v, v <> from_id c ->
     pendingSubscriptions (reg (subscribe_tail c wl pn t w)) !! v =
     pendingSubscriptions (reg w) !! v).
Proof.
  unfold subscribe_tail.
  destruct (findSubscriber (wl_id wl) (from_id c) (store w)) eqn:Hf.
  { split; [by left | done]. }
  destruct (if chat_private c then (true, w) else checkUserRegistration c t w)
    as [b w1] eqn:E.
  apply gate_result in E as [Hs Hp].
  destruct b.
  - rewrite react_or_reply_store, react_or_reply_reg. simpl. split.
    + right. exists (Build_Subscriber (next_sub_id (store w1)) (wl_id wl) (from_id c)
                      (or_empty (from_username c))).
      simpl. rewrite Hs. by split.
    + intros v _. by rewrite Hp.
  - cbn. split.
    + left. by rewrite Hs.
    + intros v Hv. rewrite lookup_insert_ne by congruence. by rewrite Hp.
Qed.

Lemma subscribe_shape c args t w :
  adds_row (from_id c) (store w) (store (subscribe c args t w)) /\
  (forall v, v <> from_id c ->
     pendingSubscriptions (reg (subscribe c args t w)) !! v =
     pendingSubscriptions (reg w) !! v).
Proof.
  unfold subscribe. destruct args as [|a args']; [split; [by left|done]|].
  destruct (findWaitlist _ _ _); [apply subscribe_tail_shape|split; [by left|done]].
Qed.

Lemma subscribe_dynamic_shape c text t w :
  adds_row (from_id c) (store w) (store (subscribe_dynamic c text t w)) /\
  (forall v, v <> from_id c ->
     pendingSubscriptions (reg (subscribe_dynamic c text t w)) !! v =
     pendingSubscriptions (reg w) !! v).
Proof.
  unfold subscribe_dynamic. destruct (match_dynamic text); [|split; [by left|done]].
  destruct (resolve_dynamic _ _ _); [apply subscribe_tail_shape|split; [by left|done]].
Qed.

Lemma complete_pending_shape c ps f w :
  reg (complete_pending c ps f w) = reg w /\
  adds_row (from_id c) (store w) (store (complete_pending c ps f w)).
Proof.
  unfold complete_pending.
  destruct f; try (split; [done | by left]);
    destruct (findWaitlist _ _ _) as [wl|]; try (split; [done | by left]);
    destruct (findSubscriber (wl_id wl) (from_id c) (store w)) eqn:Hf;
    try (split; [done | by left]).
  split; [done|]. right.
  exists (Build_Subscriber (next_sub_id (store w)) (wl_id wl) (from_id c)
            (or_empty (from_username c))). simpl. by split.
Qed.

Lemma start_shape c f w :
  adds_row (from_id c) (store w) (store (start c f w)) /\
  (pendingSubscriptions (reg w) !! from_id c = None ->
     subscribers (store (start c f w)) = subscribers (store w)) /\
  (forall v, pendingSubscriptions (reg (start c f w)) !! v =
     if chat_private c && bool_decide (v = from_id c) then None
     else pendingSubscriptions (reg w) !! v).
Proof.
  unfold start. destruct (chat_private c) eqn:Hp;
    [|simpl; split; [by left|]; split; [done|]; intros v; done].
  cbv zeta.
  destruct (registrationMessages (reg (add_verified (from_id c) w)) !! from_id c) as [mi|];
  simpl; destruct (pendingSubscriptions (reg w) !! from_id c) as [ps|] eqn:Hps; simpl;
  try (split; [by left|]; split; [done|]; intros v; case_bool_decide; subst; done).
  all: destruct (complete_pending_shape c ps f
         (del_regmsg (from_id c) (emit (DeleteMessage (mi_chatId mi) (mi_messageId mi))
            (add_verified (from_id c) w)))) as [Hr Ha]
    || destruct (complete_pending_shape c ps f (add_verified (from_id c) w)) as [Hr Ha].
  all: rewrite Hr; simpl in Ha |- *; split; [done|]; split; [done|];
    intros v; case_bool_decide; subst;
    [by rewrite lookup_delete_eq | by rewrite lookup_delete_ne].
Qed.

Lemma unsubscribe_shape c args ok w :
  removes_rows (store w) (store (unsubscribe c args ok w)) /\
  reg (unsubscribe c args ok w) = reg w.
Proof.
  unfold unsubscribe. destruct args; [split; [by left|done]|].
  destruct (if chat_private c then _ else _); [|split; [by left|done]].
  rewrite react_or_reply_store, react_or_reply_reg. split; [|done].
  right. eexists. reflexivity.
Qed.

Lemma openwaitlist_shape c args a w :
  subscribers (store (openwaitlist c args a w)) = subscribers (store w) /\
  reg (openwaitlist c args a w) = reg w.
Proof.
  unfold openwaitlist. destruct a; [|done]. simpl.
  destruct (find_index _ _); [|done].
  destruct (_ <? _)%nat; [done|].
  by destruct (findWaitlist _ _ _).
Qed.

Lemma closewaitlist_shape c args a w :
  removes_rows (store w) (store (closewaitlist c args a w)) /\
  reg (closewaitlist c args a w) = reg w.
Proof.
  unfold closewaitlist. destruct (negb _); [split; [by left|done]|].
  destruct args; [split; [by left|done]|].
  destruct (findWaitlist _ _ _); [|split; [by left|done]].
  destruct (negb _ && negb _); [split; [by left|done]|].
  split; [|done]. right. eexists. reflexivity.
Qed.

Lemma send_loop_world fails i subs n fl w :
  store (snd (send_loop fails i subs n fl w)) = store w /\
  reg (snd (send_loop fails i subs n fl w)) = reg w /\
  effects (snd (send_loop fails i subs n fl w)) =
    effects w ++ map (fun sb => SendDM (userId sb) BroadcastDM) subs.
Proof.
  revert i n fl w. induction subs as [|sb r IH]; intros i n fl w; simpl.
  - by rewrite app_nil_r.
  - destruct (fails i);
      [destruct (IH (S i) n (fl ++ [userId sb]) (emit (SendDM (userId sb) BroadcastDM) w))
         as (H1 & H2 & H3)
      |destruct (IH (S i) (S n) fl (emit (SendDM (userId sb) BroadcastDM) w))
         as (H1 & H2 & H3)];
    simpl in H1, H2, H3; rewrite H1, H2, H3, <- app_assoc; done.
Qed.

Lemma broadcast_world c args fails w :
  store (broadcast c args fails w) = store w /\ reg (broadcast c args fails w) = reg w.
Proof.
  unfold broadcast. destruct (negb _); [done|].
  destruct args as [|p [|m rest]]; [done|done|].
  destruct (findOwnedWaitlist _ _ _) as [wl|]; [|done].
  destruct (_ || _); [done|].
  destruct (send_loop fails 0 (subscribersOf (wl_id wl) (store w)) 0 [] w)
    as [[n fl] w1] eqn:E.
  destruct (send_loop_world fails 0 (subscribersOf (wl_id wl) (store w)) 0 [] w)
    as (H1 & H2 & _).
  rewrite E in H1, H2. simpl in H1, H2. simpl. by split.
Qed.

Lemma expire_store u ok w : store (expire u ok w) = store w.
Proof. unfold expire. destruct (_ !! u); [|done]. by destruct ok. Qed.

Lemma removes_rows_in s s' sb : removes_rows s s' -> In sb (subscribers s') -> In sb (subscribers s).
Proof.
  intros [H|[p H]] Hin; rewrite H in Hin; [done|].
  by apply filter_In in Hin as [? _].
Qed.

Lemma adds_row_other u v s s' sb :
  adds_row v s s' -> v <> u -> In sb (subscribers s') -> userId sb = u ->
  In sb (subscribers s).
Proof.
  intros [H|(r & Hr & _ & H)] Hvu Hin Hu; rewrite H in Hin; [done|].
  apply in_app_or in Hin as [Hin|Hin]; [done|].
  destruct Hin as [<-|[]]. congruence.
Qed.

(** After the pending subscription of [u] is gone, no event other than a new
    subscribe attempt by [u] brings it back or creates a row for [u]. *)
Lemma step_no_pending u e w :
  ~ subscribes_as u e -> pendingSubscriptions (reg w) !! u = None ->
  pendingSubscriptions (reg (step w e)) !! u = None /\
  (forall sb, In sb (subscribers (store (step w e))) -> userId sb = u ->
     In sb (subscribers (store w))).
Proof.
  intros Hns Hnone. destruct e as [c args t|c text t|c args ok|c args a|c args a|c args fails|c f|v ok];
    simpl in Hns |- *.
  - destruct (subscribe_shape c args t w) as [Ha Hp]. split.
    + rewrite Hp; congruence.
    + intros sb Hin Hu. by eapply adds_row_other; eauto.
  - destruct (subscribe_dynamic_shape c text t w) as [Ha Hp]. split.
    + rewrite Hp; congruence.
    + intros sb Hin Hu. by eapply adds_row_other; eauto.
  - destruct (unsubscribe_shape c args ok w) as [Hr Hg]. rewrite Hg. split; [done|].
    intros sb Hin _. by eapply removes_rows_in.
  - destruct (openwaitlist_shape c args a w) as [Hs Hg]. rewrite Hg, Hs. by split.
  - destruct (closewaitlist_shape c args a w) as [Hr Hg]. rewrite Hg. split; [done|].
    intros sb Hin _. by eapply removes_rows_in.
  - destruct (broadcast_world c args fails w) as [Hs Hg]. rewrite Hg, Hs. by split.
  - destruct (start_shape c f w) as (Ha & Hnp & Hp). split.
    + rewrite Hp. destruct (_ && _); done.
    + intros sb Hin Hu. destruct (decide (from_id c = u)) as [<-|Hne].
      * by rewrite Hnp in Hin.
      * by eapply adds_row_other; eauto.
  - rewrite expire_pending_other, expire_store. split; [|done].
    case_decide; [|done]. subst v. destruct (registrationMessages (reg w) !! u); done.
Qed.

Lemma run_no_pending u evs w :
  Forall (fun e => ~ subscribes_as u e) evs ->
  pendingSubscriptions (reg w) !! u = None ->
  pendingSubscriptions (reg (run evs w)) !! u = None /\
  (forall sb, In sb (subscribers (store (run evs w))) -> userId sb = u ->
     In sb (subscribers (store w))).
Proof.
  revert w. induction evs as [|e evs IH]; intros w Hall Hnone; [done|].
  inversion Hall as [|? ? He Hrest]; subst.
  destruct (step_no_pending u e w He Hnone) as [Hp Hin].
  destruct (IH (step w e) Hrest Hp) as [Hp' Hin'].
  unfold run in *. simpl. split; [done|].
  intros sb H1 H2. apply Hin; [|done]. by apply Hin'.
Qed.

(** C4: when the expiry callback of user [u]'s prompt fires while the
    prompt entry is still recorded, it asks Telegram to delete the prompt,
    and — whether that deletion succeeds or throws ([del_ok]) — it removes
    both the PendingPrompt and the PendingSubscription entries of [u],
    leaving the store as it was.  From then on, whatever events follow
    (other than a fresh subscribe attempt by [u]), including a later
    [/start] by [u], no subscriber row for [u] is created: every row of [u]
    in the resulting store was already there at expiry. *)
Theorem expire_clears_pending (u : Z) (del_ok : bool) (w : World) (mi : MsgInfo) :
  registrationMessages (reg w) !! u = Some mi ->
  let w' := expire u del_ok w in
  effects w' = effects w ++ [DeleteMessage (mi_chatId mi) (mi_messageId mi)] /\
  registrationMessages (reg w') !! u = None /\
  pendingSubscriptions (reg w') !! u = None /\
  store w' = store w /\
  (forall evs, Forall (fun e => ~ subscribes_as u e) evs ->
     forall sb, In sb (subscribers (store (run evs w'))) -> userId sb = u ->
       In sb (subscribers (store w'))).
Proof.
  intros Hmi w'.
  assert (Hw' : w' = del_pending u (del_regmsg u
                  (emit (DeleteMessage (mi_chatId mi) (mi_messageId mi)) w)))
    by (unfold w', expire; rewrite Hmi; by destruct del_ok).
  assert (Hp : pendingSubscriptions (reg w') !! u = None)
    by (rewrite Hw'; simpl; by rewrite lookup_delete_eq).
  split; [by rewrite Hw'|]. split; [rewrite Hw'; simpl; by rewrite lookup_delete_eq|].
  split; [done|]. split; [by rewrite Hw'|].
  intros evs Hall. by apply run_no_pending.
Qed.

(** ** C7 *)

Lemma send_loop_count fails i subs n fl w :
  fst (fst (send_loop fails i subs n fl w)) =
  (n + length (List.filter (fun j => negb (fails j)) (seq i (length subs))))%nat.
Proof.
  revert i n fl w. induction subs as [|sb r IH]; intros i n fl w; simpl; [lia|].
  destruct (fails i); simpl; rewrite IH; lia.
Qed.

Lemma filter_split_count (f : nat -> bool) i k :
  (length (List.filter f (seq i k)) + length (List.filter (fun j => negb (f j)) (seq i k)))%nat = k.
Proof.
  revert i. induction k as [|k IH]; intros i; [done|]. simpl.
  specialize (IH (S i)). destruct (f i); simpl; lia.
Qed.

(** C7: once [/broadcast] reaches its send loop (a direct chat, a username,
    and a waitlist named [p] owned by that username), it tries exactly one
    [sendMessage] per subscriber row of the waitlist, in the order the store
    returns them, whatever the individual outcomes [fails i] of the sends
    are, changes no record, and reports [N - K] as the success count, where
    [N] is the number of subscribers and [K] the number of failed sends. *)
Theorem broadcast_success_count (c : Ctx) (p m : string) (rest : list string)
    (fails : nat -> bool) (w : World) (u : string) (wl : Waitlist) :
  chat_private c = true -> from_username c = Some u -> u <> EmptyString ->
  findOwnedWaitlist p (Some u) (store w) = Some wl ->
  let subs := subscribersOf (wl_id wl) (store w) in
  let K := length (List.filter fails (seq 0 (length subs))) in
  broadcast c (p :: m :: rest) fails w =
  {| store := store w; reg := reg w;
     effects := effects w ++ map (fun sb => SendDM (userId sb) BroadcastDM) subs
                  ++ [Reply (chat_id c) (BroadcastSent (length subs - K))] |}.
Proof.
  intros Hp Hu Hne Hf subs K.
  assert (Ho : ownerUsername wl = u).
  { unfold findOwnedWaitlist, findFirst in Hf. apply find_some in Hf as [_ Hf].
    apply andb_true_iff in Hf as [_ Hf]. by apply String.eqb_eq. }
  unfold broadcast. rewrite Hp, Hu, Hf. simpl.
  assert (Ht : negb (String.eqb u EmptyString) = true)
    by (destruct (String.eqb_spec u EmptyString); [contradiction|reflexivity]).
  rewrite Ht, Ho, String.eqb_refl. simpl. fold subs.
  pose proof (send_loop_count fails 0 subs 0 [] w) as Hc.
  destruct (send_loop_world fails 0 subs 0 [] w) as (H1 & H2 & H3).
  destruct (send_loop fails 0 subs 0 [] w) as [[n fl] w1]. simpl in Hc, H1, H2, H3.
  pose proof (filter_split_count fails 0 (length subs)).
  replace n with (length subs - K)%nat by (unfold K; lia).
  unfold emit. by rewrite H1, H2, H3, <- app_assoc.
Qed.

(** ** C8 and C10 *)

Lemma findOwnedWaitlist_some p o s wl :
  findOwnedWaitlist p o s = Some wl ->
  In wl (waitlists s) /\ name wl = p /\
  (forall u, o = Some u -> ownerUsername wl = u).
Proof.
  unfold findOwnedWaitlist, findFirst. intros Hf.
  apply find_some in Hf as [Hin Hf]. apply andb_true_iff in Hf as [Hn Ho].
  apply String.eqb_eq in Hn. split; [done|]. split; [done|].
  intros u ->. by apply String.eqb_eq.
Qed.

(** C8: [/broadcast] sends to nobody and mutates nothing unless it comes
    from a direct chat with the bot and from the owner of a waitlist with
    the requested name: when the chat is a group, or when no waitlist named
    [args[0]] has the caller's username as owner, the only thing the handler
    does is one reply in the caller's chat. *)
Theorem broadcast_guarded (c : Ctx) (args : list string) (fails : nat -> bool) (w : World) :
  (chat_private c = false \/
   (forall wl, In wl (waitlists (store w)) -> name wl = hd EmptyString args ->
      from_username c <> Some (ownerUsername wl))) ->
  exists r, broadcast c args fails w = emit (Reply (chat_id c) r) w.
Proof.
  intros H. unfold broadcast.
  destruct (chat_private c) eqn:Hp; [|by eexists]. simpl.
  destruct H as [H|H]; [discriminate|].
  destruct args as [|p [|m rest]]; try by eexists.
  destruct (findOwnedWaitlist p (from_username c) (store w)) as [wl|] eqn:Hf; [|by eexists].
  apply findOwnedWaitlist_some in Hf as (Hin & Hn & Ho).
  destruct (from_username c) as [o|] eqn:Hu.
  - exfalso. apply (H wl Hin Hn). by rewrite (Ho o eq_refl).
  - by eexists.
Qed.

(** C10: a caller without a username never gets past the guards of
    [/broadcast]: for every argument list the handler only replies once in
    the caller's chat, with the group-chat refusal, the usage line, "no
    waitlist that you own", or the owner-only refusal, and sends nothing to
    subscribers nor changes any record. *)
Theorem broadcast_no_username (c : Ctx) (args : list string) (fails : nat -> bool) (w : World) :
  from_username c = None ->
  exists r, (r = BroadcastDMOnly \/ r = UsageReply \/ r = NoOwnedWaitlist \/ r = OnlyOwner) /\
    broadcast c args fails w = emit (Reply (chat_id c) r) w.
Proof.
  intros Hu. unfold broadcast. rewrite Hu.
  destruct (chat_private c); simpl; [|eexists; split; [left|]; done].
  destruct args as [|p [|m rest]]; try (eexists; split; [right; left|]; done).
  destruct (findOwnedWaitlist p None (store w));
    [eexists; split; [right; right; right|]; done
    |eexists; split; [right; right; left|]; done].
Qed.

(** ** C1 *)

Lemma findSubscriber_none wid u s :
  findSubscriber wid u s = None -> pair_rows wid u s = [].
Proof.
  unfold findSubscriber, findFirst, pair_rows. intros Hf.
  pose proof (find_none _ _ Hf) as Hn.
  induction (subscribers s) as [|x l IH]; [done|]. simpl.
  rewrite (Hn x (or_introl eq_refl)). apply IH.
  - simpl in Hf. destruct (_ && _); [discriminate|done].
  - intros y Hy. apply Hn. by right.
Qed.

(** C1: for a user [u] not in [verifiedUsers] and without an outstanding
    prompt, a [/subscribe] in a group chat for an existing waitlist [wl] [u]
    is not yet on, whose silent probe fails with "can't initiate
    conversation" (and whose prompt is posted by Telegram with id [mid]),
    creates no subscriber row, sends the probe and exactly one visible
    prompt in the group, and records the pending subscription of [u]; if
    [u] then sends [/start] in a direct chat (store calls succeeding), the
    pair [(wl, u)] ends with exactly one subscriber row, the prompt is
    deleted and its PendingPrompt entry removed. *)
Theorem gated_subscribe_then_start (c c' : Ctx) (args : list string) (t : Transport)
    (w : World) (wl : Waitlist) (mid : Z) :
  from_id c ∉ verifiedUsers (reg w) ->
  registrationMessages (reg w) !! from_id c = None ->
  chat_private c = false ->
  args <> [] ->
  findWaitlist (join " " args) (chat_id c) (store w) = Some wl ->
  findSubscriber (wl_id wl) (from_id c) (store w) = None ->
  probe t = CannotInitiate ->
  prompt_reply t = Some mid ->
  from_id c' = from_id c ->
  chat_private c' = true ->
  let w1 := subscribe c args t w in
  let w2 := start c' NoFault w1 in
  subscribers (store w1) = subscribers (store w) /\
  effects w1 = effects w ++ [SendDM (from_id c) ProbeDM; Reply (chat_id c) RegistrationPrompt] /\
  pendingSubscriptions (reg w1) !! from_id c =
    Some {| ps_productName := join " " args; ps_messageId := message_id c;
            ps_chatId := chat_id c |} /\
  length (pair_rows (wl_id wl) (from_id c) (store w2)) = 1%nat /\
  effects w2 = effects w1 ++ [DeleteMessage (chat_id c) mid;
                              SetReaction (chat_id c) (message_id c);
                              Reply (chat_id c') WelcomeReply] /\
  registrationMessages (reg w2) !! from_id c = None.
Proof.
  intros Hv Hr Hg Ha Hw Hs Hpr Hm Hu Hp w1 w2.
  set (ps := {| ps_productName := join " " args; ps_messageId := message_id c;
                ps_chatId := chat_id c |}).
  set (mi := {| mi_messageId := mid; mi_chatId := chat_id c |}).
  assert (Hw1 : w1 = set_pending (from_id c) ps (set_regmsg (from_id c) mi
            (emit (Reply (chat_id c) RegistrationPrompt) (emit (SendDM (from_id c) ProbeDM) w)))).
  { unfold w1, subscribe. destruct args as [|a args']; [done|].
    rewrite Hw. unfold subscribe_tail. cbv beta iota zeta. rewrite Hs, Hg.
    unfold checkUserRegistration. rewrite decide_False by done.
    rewrite Hr, Hpr, Hm. reflexivity. }
  assert (Hs1 : store w1 = store w) by (by rewrite Hw1).
  assert (Hr1 : registrationMessages (reg w1) !! (from_id c) = Some mi)
    by (rewrite Hw1; simpl; by rewrite lookup_insert_eq).
  assert (Hp1 : pendingSubscriptions (reg w1) !! (from_id c) = Some ps)
    by (rewrite Hw1; simpl; by rewrite lookup_insert_eq).
  assert (Hw2 : w2 = emit (Reply (chat_id c') WelcomeReply)
     (del_pending (from_id c) (emit (SetReaction (chat_id c) (message_id c))
       (set_store (createSubscriber (wl_id wl) (from_id c) (or_empty (from_username c')) (store w))
         (del_regmsg (from_id c) (emit (DeleteMessage (chat_id c) mid) (add_verified (from_id c) w1))))))).
  { unfold w2, start. rewrite Hp, Hu. cbv zeta. simpl. rewrite Hr1. simpl. rewrite Hp1.
    unfold complete_pending. simpl. rewrite Hs1, Hw, ?Hu, Hs. reflexivity. }
  split; [by rewrite Hs1|].
  split; [by rewrite Hw1; simpl; rewrite <- app_assoc|].
  split; [done|].
  split.
  { rewrite Hw2. unfold pair_rows. simpl. rewrite List.filter_app.
    fold (pair_rows (wl_id wl) (from_id c) (store w)). rewrite findSubscriber_none by done.
    simpl. by rewrite !Z.eqb_refl. }
  split.
  { rewrite Hw2. simpl. by rewrite <- !app_assoc. }
  rewrite Hw2. simpl. by rewrite lookup_delete_eq.
Qed.

(** ** C3 *)

Lemma NoDup_snoc_In {A} (l : list A) (x : A) : List.NoDup l -> ~ In x l -> List.NoDup (l ++ [x]).
Proof.
  induction l as [|y l IH]; intros Hn Hx; simpl.
  { constructor; [simpl; tauto|constructor]. }
  inversion Hn as [|? ? Hy Hl]; subst. constructor.
  - intros Hin. apply in_app_or in Hin as [Hin|[<-|[]]]; [done|].
    apply Hx. by left.
  - apply IH; [done|]. intros Hin. apply Hx. by right.
Qed.

Lemma NoDup_map_filter {A B} (f : A -> B) (p : A -> bool) (l : list A) :
  List.NoDup (map f l) -> List.NoDup (map f (List.filter p l)).
Proof.
  induction l as [|x l IH]; intros Hn; simpl; [constructor|].
  inversion Hn as [|? ? Hx Hl]; subst.
  destruct (p x); simpl; [|by apply IH]. constructor; [|by apply IH].
  intros Hin. apply Hx. apply in_map_iff in Hin as (y & Hy & Hin).
  apply filter_In in Hin as [Hin _]. apply in_map_iff. eauto.
Qed.

Lemma adds_row_unique u s s' : adds_row u s s' -> unique_pairs s -> unique_pairs s'.
Proof.
  unfold unique_pairs. intros [H|(r & Hr & Hf & H)] Hn; rewrite H; [done|].
  rewrite map_app. apply NoDup_snoc_In; [done|].
  intros Hin. apply in_map_iff in Hin as (sb & Hsb & Hin).
  unfold findSubscriber, findFirst in Hf.
  pose proof (find_none _ _ Hf sb Hin) as Hb. simpl in Hb.
  injection Hsb as H1 H2. rewrite H1, H2, Hr, !Z.eqb_refl in Hb. discriminate.
Qed.

Lemma removes_rows_unique s s' : removes_rows s s' -> unique_pairs s -> unique_pairs s'.
Proof.
  unfold unique_pairs. intros [H|[p H]] Hn; rewrite H; [done|].
  by apply NoDup_map_filter.
Qed.

Lemma step_unique_pairs w e : unique_pairs (store w) -> unique_pairs (store (step w e)).
Proof.
  intros Hn. destruct e as [c args t|c text t|c args ok|c args a|c args a|c args fails|c f|v ok];
    simpl.
  - by eapply adds_row_unique; [apply subscribe_shape|].
  - by eapply adds_row_unique; [apply subscribe_dynamic_shape|].
  - by eapply removes_rows_unique; [apply unsubscribe_shape|].
  - unfold unique_pairs. by rewrite (proj1 (openwaitlist_shape c args a w)).
  - by eapply removes_rows_unique; [apply closewaitlist_shape|].
  - by rewrite (proj1 (broadcast_world c args fails w)).
  - by eapply adds_row_unique; [apply start_shape|].
  - by rewrite expire_store.
Qed.

Lemma run_unique_pairs evs w : unique_pairs (store w) -> unique_pairs (store (run evs w)).
Proof.
  revert w. induction evs as [|e evs IH]; intros w Hn; [done|].
  unfold run. simpl. apply IH. by apply step_unique_pairs.
Qed.

Lemma complete_pending_existing c ps f w wl sb :
  findWaitlist (ps_productName ps) (ps_chatId ps) (store w) = Some wl ->
  findSubscriber (wl_id wl) (from_id c) (store w) = Some sb ->
  store (complete_pending c ps f w) = store w.
Proof.
  intros Hw Hs. unfold complete_pending.
  destruct f; simpl; try done; rewrite Hw; simpl; try done; by rewrite Hs.
Qed.

(** C3: no (waitlist, user) pair ever gets a second subscriber row.  From a
    store where the pairs are distinct, every sequence of updates and timer
    firings keeps them distinct; a second [/subscribe] (or dynamic
    [/subscribe_<name>]) for a pair that already has a row only replies
    "already on the waitlist" and changes nothing else; and the deferred
    completion in [/start] leaves the subscriber table as it is when the
    user already has a row for the pending waitlist. *)
Theorem subscriber_pairs_unique (w : World) :
  unique_pairs (store w) ->
  (forall evs, unique_pairs (store (run evs w))) /\
  (forall c args t wl,
     args <> [] ->
     findWaitlist (join " " args) (chat_id c) (store w) = Some wl ->
     findSubscriber (wl_id wl) (from_id c) (store w) <> None ->
     subscribe c args t w = emit (Reply (chat_id c) AlreadySubscribed) w) /\
  (forall c text t m wl,
     match_dynamic text = Some m ->
     resolve_dynamic (strip_mention m) (chat_id c) (store w) = Some wl ->
     findSubscriber (wl_id wl) (from_id c) (store w) <> None ->
     subscribe_dynamic c text t w = emit (Reply (chat_id c) AlreadySubscribed) w) /\
  (forall c f ps wl,
     chat_private c = true ->
     pendingSubscriptions (reg w) !! from_id c = Some ps ->
     findWaitlist (ps_productName ps) (ps_chatId ps) (store w) = Some wl ->
     findSubscriber (wl_id wl) (from_id c) (store w) <> None ->
     subscribers (store (start c f w)) = subscribers (store w)).
Proof.
  intros Hn. split; [intros evs; by apply run_unique_pairs|]. split; [|split].
  - intros c args t wl Ha Hw Hs. unfold subscribe.
    destruct args as [|a args']; [done|]. rewrite Hw. unfold subscribe_tail.
    destruct (findSubscriber (wl_id wl) (from_id c) (store w)); done.
  - intros c text t m wl Hm Hr Hs. unfold subscribe_dynamic.
    rewrite Hm. cbv zeta. rewrite Hr. unfold subscribe_tail.
    destruct (findSubscriber (wl_id wl) (from_id c) (store w)); done.
  - intros c f ps wl Hp Hps Hw Hs.
    destruct (findSubscriber (wl_id wl) (from_id c) (store w)) as [sb|] eqn:Hsb; [|done].
    unfold start. rewrite Hp. cbv zeta.
    destruct (registrationMessages (reg (add_verified (from_id c) w)) !! from_id c) as [mi|];
      simpl; rewrite Hps; simpl; erewrite complete_pending_existing; simpl; eauto.
Qed.

(** ** C6 *)

(** C6 (as the code behaves): when user [u] with a PendingSubscription [ps]
    sends [/start] in a direct chat, the handler deletes any outstanding
    prompt, removes the PendingSubscription, and ends with its ordinary
    welcome reply whatever happens, so no error reaches the user.  The
    deferred subscription and the reaction sit in one [try] block: if no
    store call throws, a row is created iff the waitlist named in [ps] is
    found in [ps]'s chat and [u] has no row for it, and then the 👍 reaction
    is requested on the original message; if a store call throws, no row is
    created and the reaction is skipped. *)
Theorem start_completes_pending (c : Ctx) (f : StoreFault) (w : World) (ps : PendingSub) :
  chat_private c = true ->
  pendingSubscriptions (reg w) !! from_id c = Some ps ->
  let w' := start c f w in
  let thrown := completion_throws c ps f (store w) in
  pendingSubscriptions (reg w') !! from_id c = None /\
  subscribers (store w') =
    subscribers (store w) ++ (if thrown then [] else completion_rows c ps (store w)) /\
  effects w' =
    effects w ++ prompt_cleanup (reg w) (from_id c) ++
    (if thrown then [] else [SetReaction (ps_chatId ps) (ps_messageId ps)]) ++
    [Reply (chat_id c) WelcomeReply].
Proof.
  intros Hp Hps w' thrown. unfold w', thrown, start, prompt_cleanup. rewrite Hp. cbv zeta.
  simpl. destruct (registrationMessages (reg w) !! from_id c) as [mi|];
    simpl; rewrite Hps; simpl; rewrite lookup_delete_eq; (split; [done|]);
    unfold complete_pending, completion_throws, completion_rows; simpl;
    destruct f; simpl; rewrite ?app_nil_r; try (split; [done|]; by rewrite <- ?app_assoc);
    destruct (findWaitlist (ps_productName ps) (ps_chatId ps) (store w)) as [wl|]; simpl;
    rewrite ?app_nil_r; try (split; [done|]; by rewrite <- ?app_assoc);
    destruct (findSubscriber (wl_id wl) (from_id c) (store w)); simpl;
    rewrite ?app_nil_r; split; try done; by rewrite <- ?app_assoc.
Qed.

(** C6 as stated fails: the reaction is not applied "regardless of the
    subscription outcome".  In the spec's scenario, when the waitlist
    lookup of the deferred completion throws, [/start] still removes the
    pending subscription and greets the user, but requests no reaction on
    the original subscribe message (message 11 in the group). *)
Lemma start_store_error_skips_reaction :
  pendingSubscriptions (reg demo_prompted) !! 7 =
    Some {| ps_productName := "Launch"; ps_messageId := 11; ps_chatId := demo_group |} /\
  effects (start demo_user_dm FailFindWaitlist demo_prompted) =
    effects demo_prompted ++ [DeleteMessage demo_group 50; Reply 7 WelcomeReply] /\
  ~ In (SetReaction demo_group 11) (effects (start demo_user_dm FailFindWaitlist demo_prompted)).
Proof.
  split; [vm_compute; reflexivity|]. split; [vm_compute; reflexivity|].
  vm_compute. intros H. repeat destruct H as [H|H]; try discriminate; done.
Qed.

(** ** C2 *)

(** C2 fails on the code: [subscribe] stores a PendingSubscription whenever
    [checkUserRegistration] answers [false], also when the probe failed with
    an error other than "can't initiate conversation", a branch in which no
    prompt is posted and no PendingPrompt is recorded.  Starting from the
    spec's scenario (no registration state at all), user 7's [/subscribe
    Launch] whose probe fails otherwise leaves a PendingSubscription without
    a PendingPrompt, which the expiry callback never clears. *)
Lemma pending_subscription_without_prompt :
  registrationMessages (reg demo_opened) = ∅ /\
  pendingSubscriptions (reg demo_opened) = ∅ /\
  let w := subscribe demo_user_group ["Launch"] probe_other_error demo_opened in
  pendingSubscriptions (reg w) !! 7 =
    Some {| ps_productName := "Launch"; ps_messageId := 11; ps_chatId := demo_group |} /\
  registrationMessages (reg w) !! 7 = None /\
  effects w = effects demo_opened ++ [SendDM 7 ProbeDM] /\
  expire 7 true w = w /\ expire 7 false w = w.
Proof. vm_compute. repeat split; reflexivity. Qed.

(** ** C5 *)

(** C5 as stated fails: the command is compared with the lowercased
    sanitized name without being lowercased itself, so an upper-case variant
    of a sanitized name does not resolve.  [/subscribe_LAUNCH] in the group
    of waitlist "Launch" answers "no waitlist found". *)
Lemma dynamic_uppercase_not_resolved :
  sanitize "Launch" = "launch" /\ toLowerCase "LAUNCH" = "launch" /\
  findWaitlist "Launch" demo_group (store demo_opened) <> None /\
  subscribe_dynamic demo_user_group "/subscribe_LAUNCH" probe_refused demo_opened =
    emit (Reply demo_group WaitlistNotFound) demo_opened.
Proof. vm_compute. repeat split; try reflexivity; discriminate. Qed.

Lemma is_line_term_ws (a : ascii) : is_line_term a = true -> is_ws a = true.
Proof.
  unfold is_line_term, is_ws. remember (nat_of_ascii a) as n eqn:En. clear En.
  intros H. apply orb_true_iff in H as [H|H]; apply Nat.eqb_eq in H; subst; reflexivity.
Qed.

Lemma lower_ascii_line_term (a : ascii) :
  is_line_term a = false -> is_line_term (lower_ascii a) = false.
Proof.
  destruct a as [[] [] [] [] [] [] [] []]; vm_compute; intros H;
    first [reflexivity | discriminate H].
Qed.

Lemma replace_ws_runs_no_line_term (b : bool) (s : string) :
  no_line_term (replace_ws_runs b s) = true.
Proof.
  revert b. induction s as [|a r IH]; intros b; [reflexivity|].
  simpl. destruct (is_ws a) eqn:Ews.
  - destruct b; simpl; rewrite ?IH; reflexivity.
  - simpl. rewrite IH, andb_true_r.
    destruct (is_line_term a) eqn:El; [|reflexivity].
    apply is_line_term_ws in El. congruence.
Qed.

Lemma toLowerCase_no_line_term (s : string) :
  no_line_term s = true -> no_line_term (toLowerCase s) = true.
Proof.
  induction s as [|a r IH]; [reflexivity|]. simpl.
  intros H. apply andb_true_iff in H as [Ha Hr].
  rewrite IH by exact Hr. apply negb_true_iff in Ha.
  rewrite lower_ascii_line_term by exact Ha. reflexivity.
Qed.

Lemma sanitize_no_line_term (s : string) : no_line_term (sanitize s) = true.
Proof. apply toLowerCase_no_line_term, replace_ws_runs_no_line_term. Qed.

Lemma take_line_id (s : string) : no_line_term s = true -> take_line s = s.
Proof.
  induction s as [|a r IH]; [reflexivity|]. simpl.
  intros H. apply andb_true_iff in H as [Ha Hr]. apply negb_true_iff in Ha.
  rewrite Ha, IH by exact Hr. reflexivity.
Qed.

Lemma substring_all (s : string) (m : nat) :
  (String.length s <= m)%nat -> substring 0 m s = s.
Proof.
  revert m. induction s as [|a r IH]; intros m Hm.
  - destruct m; reflexivity.
  - destruct m as [|m]; simpl in Hm; [lia|]. simpl. rewrite IH by lia. reflexivity.
Qed.

Lemma match_dynamic_prefix (cmd : string) :
  cmd <> EmptyString -> no_line_term cmd = true ->
  match_dynamic (subscribe_prefix ++ cmd) = Some cmd.
Proof.
  intros Hne Hl. unfold match_dynamic, subscribe_prefix. simpl.
  rewrite substring_all by lia. rewrite take_line_id by exact Hl.
  destruct cmd; [congruence|reflexivity].
Qed.

Lemma mention_split_no_at (s pre : string) :
  has_char "@" s = false -> mention_split pre s = None.
Proof.
  revert pre. induction s as [|a r IH]; intros pre H; [reflexivity|].
  cbn [has_char mention_split] in H |- *. apply orb_false_iff in H as [Ha Hr].
  rewrite Ha, andb_false_r. cbn [andb].
  apply IH, Hr.
Qed.

Lemma find_app_skip {A} (f : A -> bool) (l1 l2 : list A) :
  (forall x, In x l1 -> f x = false) -> List.find f (l1 ++ l2) = List.find f l2.
Proof.
  induction l1 as [|a l1 IH]; intros H; [reflexivity|]. simpl.
  rewrite H by (left; reflexivity). apply IH. intros x Hx. apply H. right; exact Hx.
Qed.

(** C5 (amended): the dynamic command is resolved in two phases, an exact
    name match in the chat (underscores read as spaces), then the first
    waitlist of the chat, in store order, whose lowercased sanitized name
    equals the command exactly (the command itself is not lowercased).  In
    particular the lowercase sanitized name of a waitlist [wl], used as
    [/subscribe_<name>], is matched, and the handler continues with [wl]
    when the name is non-empty and has no ['@'], no other waitlist of the
    chat bears the command's underscores-as-spaces form as its name, and no
    waitlist of the chat before [wl] has the same sanitized name. *)
Theorem dynamic_command_resolves (c : Ctx) (t : Transport) (w : World)
    (pre post : list Waitlist) (wl : Waitlist) :
  waitlists (store w) = pre ++ wl :: post ->
  chatId wl = chat_id c ->
  sanitize (name wl) <> EmptyString ->
  has_char "@" (sanitize (name wl)) = false ->
  (forall x, In x (waitlists (store w)) -> chatId x = chat_id c ->
     name x = underscores_to_spaces (sanitize (name wl)) -> x = wl) ->
  (forall x, In x pre -> chatId x = chat_id c -> sanitize (name x) <> sanitize (name wl)) ->
  match_dynamic (subscribe_prefix ++ sanitize (name wl)) = Some (sanitize (name wl)) /\
  strip_mention (sanitize (name wl)) = sanitize (name wl) /\
  resolve_dynamic (sanitize (name wl)) (chat_id c) (store w) = Some wl /\
  subscribe_dynamic c (subscribe_prefix ++ sanitize (name wl)) t w =
    subscribe_tail c wl (name wl) t w.
Proof.
  intros Hws Hchat Hne Hat H1 H2.
  set (cmd := sanitize (name wl)) in *.
  assert (Hm : match_dynamic (subscribe_prefix ++ cmd) = Some cmd)
    by (apply match_dynamic_prefix; [exact Hne | apply sanitize_no_line_term]).
  assert (Hs : strip_mention cmd = cmd)
    by (unfold strip_mention; rewrite mention_split_no_at by exact Hat; reflexivity).
  assert (Hr : resolve_dynamic cmd (chat_id c) (store w) = Some wl).
  { unfold resolve_dynamic, findWaitlist, findFirst.
    destruct (List.find _ (waitlists (store w))) as [x|] eqn:Ef.
    - apply List.find_some in Ef as [Hin Hx].
      apply andb_true_iff in Hx as [Hn Hc].
      apply String.eqb_eq in Hn. apply Z.eqb_eq in Hc.
      f_equal. apply H1; assumption.
    - rewrite Hws, List.filter_app. simpl. rewrite Hchat, Z.eqb_refl.
      rewrite find_app_skip.
      + simpl. rewrite String.eqb_refl. reflexivity.
      + intros x Hx. apply List.filter_In in Hx as [Hx Hc].
        apply Z.eqb_eq in Hc. apply String.eqb_neq. apply H2; assumption. }
  split; [exact Hm|]. split; [exact Hs|]. split; [exact Hr|].
  unfold subscribe_dynamic. rewrite Hm, Hs, Hr. reflexivity.
Qed.

(** * Instances of the claims on the spec's scenario *)

Ltac settle_hyp :=
  first [ discriminate
        | reflexivity
        | (vm_compute; reflexivity)
        | (apply bool_decide_unpack; vm_compute; exact I) ].

Lemma gated_subscribe_then_start_witness :
  length (pair_rows (wl_id demo_launch) 7 (store demo_subscribed)) = 1%nat.
Proof.
  refine (proj1 (proj2 (proj2 (proj2
    (gated_subscribe_then_start demo_user_group demo_user_dm ["Launch"] probe_refused
       demo_opened demo_launch 50 _ _ _ _ _ _ _ _ _ _))))); settle_hyp.
Defined.

Lemma subscriber_pairs_unique_witness :
  unique_pairs (store (run demo_events empty_world)).
Proof.
  refine (proj1 (subscriber_pairs_unique empty_world _) demo_events).
  vm_compute. constructor.
Defined.

Lemma expire_clears_pending_witness :
  registrationMessages (reg (expire 7 true demo_prompted)) !! 7 = None /\
  pendingSubscriptions (reg (expire 7 true demo_prompted)) !! 7 = None.
Proof.
  refine (match expire_clears_pending 7 true demo_prompted
                  {| mi_messageId := 50; mi_chatId := demo_group |} _ with
          | conj _ (conj H1 (conj H2 _)) => conj H1 H2 end).
  settle_hyp.
Defined.

Lemma start_completes_pending_witness :
  pendingSubscriptions (reg (start demo_user_dm NoFault demo_prompted)) !! 7 = None.
Proof.
  refine (proj1 (start_completes_pending demo_user_dm NoFault demo_prompted
    {| ps_productName := "Launch"; ps_messageId := 11; ps_chatId := demo_group |} _ _));
    settle_hyp.
Defined.

Lemma broadcast_success_count_witness :
  effects (broadcast demo_owner_dm ["Launch"; "Hello"] (fun _ => false) demo_subscribed) =
  effects demo_subscribed ++ [SendDM 7 BroadcastDM; Reply 2 (BroadcastSent 1)].
Proof.
  rewrite (broadcast_success_count demo_owner_dm "Launch" "Hello" [] (fun _ => false)
             demo_subscribed "alice" demo_launch); settle_hyp.
Defined.

Lemma broadcast_guarded_witness :
  (exists r, broadcast demo_user_group ["Launch"; "Hello"] (fun _ => false) demo_subscribed =
             emit (Reply demo_group r) demo_subscribed) /\
  (exists r, broadcast demo_user_dm ["Launch"; "Hello"] (fun _ => false) demo_subscribed =
             emit (Reply 7 r) demo_subscribed).
Proof.
  split.
  - apply (broadcast_guarded demo_user_group ["Launch"; "Hello"] (fun _ => false)
             demo_subscribed). left. reflexivity.
  - apply (broadcast_guarded demo_user_dm ["Launch"; "Hello"] (fun _ => false)
             demo_subscribed). right.
    intros wl Hin _. vm_compute in Hin. destruct Hin as [<-|[]]. discriminate.
Defined.

Lemma broadcast_no_username_witness :
  exists r, (r = BroadcastDMOnly \/ r = UsageReply \/ r = NoOwnedWaitlist \/ r = OnlyOwner) /\
    broadcast demo_anon_dm ["Launch"; "Hello"] (fun _ => false) demo_subscribed =
    emit (Reply 8 r) demo_subscribed.
Proof.
  apply (broadcast_no_username demo_anon_dm ["Launch"; "Hello"] (fun _ => false)
           demo_subscribed). reflexivity.
Defined.

Lemma checkUserRegistration_short_circuit_witness :
  checkUserRegistration demo_user_group probe_refused demo_subscribed = (true, demo_subscribed) /\
  checkUserRegistration demo_user_group probe_refused demo_prompted = (false, demo_prompted).
Proof.
  split.
  - apply (proj1 (checkUserRegistration_short_circuit demo_user_group probe_refused
                    demo_subscribed)); settle_hyp.
  - apply (proj2 (checkUserRegistration_short_circuit demo_user_group probe_refused
                    demo_prompted)).
    + settle_hyp.
    + vm_compute. eexists. reflexivity.
Defined.

Lemma dynamic_command_resolves_witness :
  subscribe_dynamic demo_user_group (subscribe_prefix ++ "launch") probe_refused demo_opened =
  subscribe_tail demo_user_group demo_launch "Launch" probe_refused demo_opened.
Proof.
  refine (proj2 (proj2 (proj2 (dynamic_command_resolves demo_user_group probe_refused
            demo_opened [] [] demo_launch _ _ _ _ _ _)))); try settle_hyp.
  - intros x Hin _ _. vm_compute in Hin. destruct Hin as [<-|[]]. reflexivity.
  - intros x [].
Defined.

(** * Further properties of the handlers *)

(** ** [escapeMarkdown] *)

Lemma backslash_not_special : is_md_special backslash = false.
Proof. reflexivity. Qed.

Lemma escapeMarkdown_length_aux (s : string) :
  String.length (escapeMarkdown s) = (String.length s + md_special_count s)%nat.
Proof.
  induction s as [|a r IH]; [reflexivity|]. simpl.
  destruct (is_md_special a); simpl; rewrite IH; lia.
Qed.

Lemma escapeMarkdown_plain_aux (s : string) :
  md_special_count s = O -> escapeMarkdown s = s.
Proof.
  induction s as [|a r IH]; [reflexivity|]. simpl.
  destruct (is_md_special a); simpl; [lia|]. intros H. by rewrite IH.
Qed.

Lemma escapeMarkdown_head (s t : string) (a : ascii) :
  escapeMarkdown s = String a t -> is_md_special a = false.
Proof.
  destruct s as [|b r]; simpl; [discriminate|].
  destruct (is_md_special b) eqn:Eb; intros H; injection H as <- _;
    [exact backslash_not_special | exact Eb].
Qed.

(** [escapeMarkdown] lengthens its input by exactly one backslash per
    character of the class [[_*[\]()~`>#+=|{}.!-]]. *)
Theorem escapeMarkdown_length (s : string) :
  String.length (escapeMarkdown s) = (String.length s + md_special_count s)%nat.
Proof. apply escapeMarkdown_length_aux. Qed.

(** [escapeMarkdown] leaves a text unchanged exactly when the text has no
    character of the class. *)
Theorem escapeMarkdown_fixed_iff (s : string) :
  escapeMarkdown s = s <-> md_special_count s = O.
Proof.
  split; [|apply escapeMarkdown_plain_aux].
  intros H. pose proof (escapeMarkdown_length_aux s) as Hl. rewrite H in Hl. lia.
Qed.

(** Different texts are escaped to different texts: [escapeMarkdown] is
    injective, although it does not escape the backslash itself. *)
Theorem escapeMarkdown_injective (s1 s2 : string) :
  escapeMarkdown s1 = escapeMarkdown s2 -> s1 = s2.
Proof.
  revert s2. induction s1 as [|a r1 IH]; intros [|b r2]; simpl; try reflexivity.
  - destruct (is_md_special b); discriminate.
  - destruct (is_md_special a); discriminate.
  - destruct (is_md_special a) eqn:Ea, (is_md_special b) eqn:Eb; intros H.
    + injection H as -> H. by rewrite (IH r2 H).
    + injection H as Hb H. symmetry in H. apply escapeMarkdown_head in H. congruence.
    + injection H as Ha H. apply escapeMarkdown_head in H. congruence.
    + injection H as -> H. by rewrite (IH r2 H).
Qed.

(** In the output of [escapeMarkdown] every character of the class is
    directly preceded by a backslash, whatever precedes the output. *)
Theorem escapeMarkdown_escapes_specials (prev : ascii) (s : string) :
  specials_escaped prev (escapeMarkdown s) = true.
Proof.
  revert prev. induction s as [|a r IH]; intros prev; [reflexivity|]. simpl.
  destruct (is_md_special a) eqn:Ea; simpl.
  - rewrite ?Ea, ?backslash_not_special, ?Ascii.eqb_refl, ?orb_true_r. simpl. apply IH.
  - rewrite Ea. simpl. apply IH.
Qed.

(** ** Command arguments: [text.split(' ').slice(1)] and [args.join(' ')] *)

Lemma split_sp_nonempty (s : string) : split_sp s <> [].
Proof.
  destruct s as [|a r]; simpl; [discriminate|].
  destruct (Ascii.eqb a " "); [discriminate|]. destruct (split_sp r); discriminate.
Qed.

Lemma join_cons (sep x : string) (l : list string) :
  l <> [] -> join sep (x :: l) = (x ++ sep ++ join sep l)%string.
Proof. destruct l; [congruence|reflexivity]. Qed.

Lemma join_split_sp (s : string) : join " " (split_sp s) = s.
Proof.
  induction s as [|a r IH]; [reflexivity|]. simpl.
  destruct (Ascii.eqb_spec a " ") as [->|Ha].
  - rewrite join_cons by apply split_sp_nonempty. by rewrite IH.
  - pose proof (split_sp_nonempty r) as Hne.
    destruct (split_sp r) as [|x xs]; [congruence|].
    destruct xs as [|y ys].
    + simpl in IH |- *. by rewrite IH.
    + rewrite join_cons by discriminate. rewrite join_cons in IH by discriminate.
      rewrite <- IH. reflexivity.
Qed.

Lemma split_sp_pieces (s x : string) : In x (split_sp s) -> has_char " " x = false.
Proof.
  revert x. induction s as [|a r IH]; intros x Hx; simpl in Hx.
  - destruct Hx as [<-|[]]. reflexivity.
  - destruct (Ascii.eqb a " ") eqn:Ea.
    + destruct Hx as [<-|Hx]; [reflexivity|]. by apply IH.
    + destruct (split_sp r) as [|y ys] eqn:Er.
      * destruct Hx as [<-|[]]. simpl. by rewrite Ea.
      * destruct Hx as [<-|Hx].
        -- simpl. rewrite Ea. apply IH. by left.
        -- apply IH. by right.
Qed.

Lemma split_sp_space_free (s : string) : has_char " " s = false -> split_sp s = [s].
Proof.
  induction s as [|a r IH]; [reflexivity|]. simpl.
  intros H. apply orb_false_iff in H as [Ha Hr]. rewrite Ha, IH by exact Hr. reflexivity.
Qed.

Lemma split_sp_command (cmd rest : string) :
  has_char " " cmd = false -> split_sp (cmd ++ String " " rest) = cmd :: split_sp rest.
Proof.
  induction cmd as [|a r IH]; [reflexivity|]. simpl.
  intros H. apply orb_false_iff in H as [Ha Hr]. rewrite Ha, IH by exact Hr. reflexivity.
Qed.

(** The argument parsing shared by [/subscribe], [/unsubscribe],
    [/closewaitlist] and [/list]: a command with nothing after it has no
    argument (the usage branch), and otherwise the product name
    [args.join(' ')] is exactly the text after the first space, with its
    spaces, repeated ones included, as typed. *)
Theorem command_args_product_name (cmd rest : string) :
  has_char " " cmd = false ->
  command_args cmd = [] /\
  command_args (cmd ++ " " ++ rest) <> [] /\
  join " " (command_args (cmd ++ " " ++ rest)) = rest.
Proof.
  intros H. unfold command_args. rewrite split_sp_space_free by exact H.
  change (" " ++ rest)%string with (String " " rest).
  rewrite split_sp_command by exact H. simpl.
  split; [reflexivity|]. split; [apply split_sp_nonempty|apply join_split_sp].
Qed.

(** ** Store shape of each handler *)

Lemma findWaitlist_some nm ch s wl :
  findWaitlist nm ch s = Some wl -> In wl (waitlists s) /\ name wl = nm /\ chatId wl = ch.
Proof.
  unfold findWaitlist, findFirst. intros Hf.
  apply find_some in Hf as [Hin Hf]. apply andb_true_iff in Hf as [Hn Hc].
  apply String.eqb_eq in Hn. apply Z.eqb_eq in Hc. done.
Qed.

Lemma resolve_dynamic_some cmd ch s wl :
  resolve_dynamic cmd ch s = Some wl -> In wl (waitlists s) /\ chatId wl = ch.
Proof.
  unfold resolve_dynamic.
  destruct (findWaitlist _ ch s) as [x|] eqn:Ef.
  - intros [= <-]. apply findWaitlist_some in Ef as (? & _ & ?). done.
  - unfold findFirst. intros Hf. apply find_some in Hf as [Hin _].
    apply filter_In in Hin as [Hin Hc]. apply Z.eqb_eq in Hc. done.
Qed.

Lemma subscribe_tail_store c wl pn t w :
  waitlists (store (subscribe_tail c wl pn t w)) = waitlists (store w) /\
  (subscribers (store (subscribe_tail c wl pn t w)) = subscribers (store w) \/
   subscribers (store (subscribe_tail c wl pn t w)) =
     subscribers (store w) ++ [new_row c wl (store w)]).
Proof.
  unfold subscribe_tail.
  destruct (findSubscriber (wl_id wl) (from_id c) (store w)); [simpl; auto|].
  destruct (if chat_private c then (true, w) else checkUserRegistration c t w)
    as [b w1] eqn:E.
  apply gate_result in E as [Hs _].
  destruct b; [|simpl; rewrite Hs; auto].
  rewrite react_or_reply_store. simpl. rewrite Hs. auto.
Qed.

Lemma subscribe_store c args t w :
  waitlists (store (subscribe c args t w)) = waitlists (store w) /\
  (subscribers (store (subscribe c args t w)) = subscribers (store w) \/
   exists wl, In wl (waitlists (store w)) /\ chatId wl = chat_id c /\
     subscribers (store (subscribe c args t w)) =
       subscribers (store w) ++ [new_row c wl (store w)]).
Proof.
  unfold subscribe. destruct args as [|a args]; [simpl; auto|].
  destruct (findWaitlist _ _ _) as [wl|] eqn:Ef; [|simpl; auto].
  apply findWaitlist_some in Ef as (Hin & _ & Hc).
  destruct (subscribe_tail_store c wl (join " " (a :: args)) t w) as [Hw [Hs|Hs]];
    split; auto. right. eauto.
Qed.

Lemma subscribe_dynamic_store c text t w :
  waitlists (store (subscribe_dynamic c text t w)) = waitlists (store w) /\
  (subscribers (store (subscribe_dynamic c text t w)) = subscribers (store w) \/
   exists wl, In wl (waitlists (store w)) /\ chatId wl = chat_id c /\
     subscribers (store (subscribe_dynamic c text t w)) =
       subscribers (store w) ++ [new_row c wl (store w)]).
Proof.
  unfold subscribe_dynamic. destruct (match_dynamic text) as [m|]; [|auto].
  destruct (resolve_dynamic _ _ _) as [wl|] eqn:Ef; [|simpl; auto].
  apply resolve_dynamic_some in Ef as [Hin Hc].
  destruct (subscribe_tail_store c wl (name wl) t w) as [Hw [Hs|Hs]];
    split; auto. right. eauto.
Qed.

Lemma complete_pending_store c ps f w :
  waitlists (store (complete_pending c ps f w)) = waitlists (store w) /\
  (subscribers (store (complete_pending c ps f w)) = subscribers (store w) \/
   exists wl, In wl (waitlists (store w)) /\
     subscribers (store (complete_pending c ps f w)) =
       subscribers (store w) ++ [new_row c wl (store w)]).
Proof.
  unfold complete_pending.
  destruct f; try (simpl; auto; fail);
  (destruct (findWaitlist (ps_productName ps) (ps_chatId ps) (store w)) as [wl|] eqn:Ef;
     [|simpl; auto]);
  apply findWaitlist_some in Ef as (Hin & _ & _);
  (destruct (findSubscriber (wl_id wl) (from_id c) (store w)); simpl; auto);
  split; [reflexivity|]; right; eauto.
Qed.

Lemma start_store c f w :
  waitlists (store (start c f w)) = waitlists (store w) /\
  (subscribers (store (start c f w)) = subscribers (store w) \/
   exists wl, In wl (waitlists (store w)) /\
     subscribers (store (start c f w)) = subscribers (store w) ++ [new_row c wl (store w)]).
Proof.
  unfold start. destruct (chat_private c); [|simpl; auto].
  set (w1 := add_verified (from_id c) w).
  assert (H1 : store w1 = store w) by reflexivity.
  set (w2 := match registrationMessages (reg w1) !! from_id c with
             | Some mi => del_regmsg (from_id c)
                            (emit (DeleteMessage (mi_chatId mi) (mi_messageId mi)) w1)
             | None => w1 end).
  assert (H2 : store w2 = store w1)
    by (unfold w2; destruct (registrationMessages (reg w1) !! from_id c); reflexivity).
  destruct (pendingSubscriptions (reg w2) !! from_id c) as [ps|]; simpl.
  - destruct (complete_pending_store c ps f w2) as [Hw Hs].
    rewrite Hw, H2, H1. split; [done|].
    destruct Hs as [Hs|(wl & Hin & Hs)]; [left; by rewrite Hs, H2, H1|].
    right. exists wl. rewrite H2, H1 in Hin, Hs. by split.
  - rewrite H2, H1. auto.
Qed.

Lemma unsubscribe_store c args ok w :
  waitlists (store (unsubscribe c args ok w)) = waitlists (store w) /\
  (subscribers (store (unsubscribe c args ok w)) = subscribers (store w) \/
   exists wl, In wl (waitlists (store w)) /\
     (chat_private c = false -> chatId wl = chat_id c) /\
     subscribers (store (unsubscribe c args ok w)) =
       List.filter (fun sb => negb (Z.eqb (waitlistId sb) (wl_id wl) && Z.eqb (userId sb) (from_id c)))
         (subscribers (store w))).
Proof.
  unfold unsubscribe. destruct args as [|a args]; [simpl; auto|].
  destruct (chat_private c) eqn:Ep.
  - destruct (findFirst _ (subscribers (store w))) as [sb|]; [|simpl; auto].
    destruct (waitlist_of sb (store w)) as [wl|] eqn:Ew; [|simpl; auto].
    unfold waitlist_of, findFirst in Ew. apply find_some in Ew as [Hin _].
    rewrite react_or_reply_store. simpl. split; [done|]. right. exists wl.
    split; [done|]. split; [discriminate|done].
  - destruct (findWaitlist _ _ _) as [wl|] eqn:Ef; [|simpl; auto].
    apply findWaitlist_some in Ef as (Hin & _ & Hc).
    rewrite react_or_reply_store. simpl. split; [done|]. right. exists wl. done.
Qed.

Lemma openwaitlist_store c args a w :
  subscribers (store (openwaitlist c args a w)) = subscribers (store w) /\
  (waitlists (store (openwaitlist c args a w)) = waitlists (store w) \/
   exists x, findWaitlist (name x) (chatId x) (store w) = None /\ chatId x = chat_id c /\
     wl_id x = next_wl_id (store w) /\
     next_wl_id (store (openwaitlist c args a w)) = next_wl_id (store w) + 1 /\
     waitlists (store (openwaitlist c args a w)) = waitlists (store w) ++ [x]).
Proof.
  unfold openwaitlist. destruct a; simpl; [|auto].
  destruct (find_index starts_with_at args) as [i|]; [|simpl; auto].
  destruct (length args <? 2)%nat; [simpl; auto|].
  destruct (findWaitlist _ _ _) eqn:Ef; simpl; [auto|].
  split; [done|]. right. eexists (Build_Waitlist _ _ _ _). split; [exact Ef|]. done.
Qed.

Lemma closewaitlist_store c args a w :
  (store (closewaitlist c args a w) = store w) \/
  exists wl, In wl (waitlists (store w)) /\ chatId wl = chat_id c /\
    (truthy (from_username c) = true) /\
    store (closewaitlist c args a w) =
      deleteWaitlist (wl_id wl)
        (deleteSubscribers (fun sb => Z.eqb (waitlistId sb) (wl_id wl)) (store w)).
Proof.
  unfold closewaitlist. destruct (truthy (from_username c)) eqn:Et; simpl; [|auto].
  destruct args as [|x args]; [simpl; auto|].
  destruct (findWaitlist _ _ _) as [wl|] eqn:Ef; [|simpl; auto].
  apply findWaitlist_some in Ef as (Hin & _ & Hc).
  destruct (negb _ && negb a); simpl; [auto|]. right. eauto.
Qed.

(** ** Invariants kept by every update *)

Lemma findWaitlist_none nm ch s :
  findWaitlist nm ch s = None ->
  forall y, In y (waitlists s) -> name y = nm -> chatId y = ch -> False.
Proof.
  unfold findWaitlist, findFirst. intros Hf y Hy Hn Hc.
  pose proof (find_none _ _ Hf y Hy) as H. simpl in H.
  rewrite Hn, Hc, String.eqb_refl, Z.eqb_refl in H. discriminate.
Qed.

Lemma names_unique_same s s' :
  waitlists s' = waitlists s -> names_unique s -> names_unique s'.
Proof. unfold names_unique. by intros ->. Qed.

Lemma step_names_unique w e : names_unique (store w) -> names_unique (store (step w e)).
Proof.
  intros Hu. destruct e as [c args t|c text t|c args ok|c args a|c args a|c args fails|c f|u ok];
    simpl.
  - apply (names_unique_same (store w)); [apply subscribe_store|done].
  - apply (names_unique_same (store w)); [apply subscribe_dynamic_store|done].
  - apply (names_unique_same (store w)); [apply unsubscribe_store|done].
  - destruct (openwaitlist_store c args a w) as [_ [Hw|(x & Hf & _ & _ & _ & Hw)]].
    + by apply (names_unique_same (store w)).
    + unfold names_unique in *. rewrite Hw, map_app. simpl.
      apply NoDup_snoc_In; [done|]. intros Hin.
      apply in_map_iff in Hin as (y & Hy & Hin). injection Hy as Hn Hc.
      exact (findWaitlist_none _ _ _ Hf y Hin Hn Hc).
  - destruct (closewaitlist_store c args a w) as [Hs|(wl & _ & _ & _ & Hs)].
    + by rewrite Hs.
    + unfold names_unique in *. rewrite Hs. simpl. by apply NoDup_map_filter.
  - by rewrite (proj1 (broadcast_world c args fails w)).
  - apply (names_unique_same (store w)); [apply start_store|done].
  - by rewrite expire_store.
Qed.

Lemma run_names_unique evs w : names_unique (store w) -> names_unique (store (run evs w)).
Proof.
  unfold run. revert w. induction evs as [|e evs IH]; intros w Hu; [done|].
  simpl. apply IH, step_names_unique, Hu.
Qed.

Lemma rows_linked_append s s' r :
  rows_linked s -> (forall wl, In wl (waitlists s) -> In wl (waitlists s')) ->
  (exists wl, In wl (waitlists s) /\ wl_id wl = waitlistId r) ->
  subscribers s' = subscribers s ++ [r] -> rows_linked s'.
Proof.
  intros Hl Hw (wl & Hin & Hid) Hs sb Hsb. rewrite Hs in Hsb.
  apply in_app_or in Hsb as [Hsb|[<-|[]]].
  - destruct (Hl sb Hsb) as (x & Hx & Hxid). eauto.
  - eauto.
Qed.

Lemma rows_linked_same s s' :
  rows_linked s -> waitlists s' = waitlists s -> subscribers s' = subscribers s -> rows_linked s'.
Proof. intros Hl Hw Hs sb Hsb. rewrite Hs in Hsb. rewrite Hw. by apply Hl. Qed.

Lemma step_rows_linked w e : rows_linked (store w) -> rows_linked (store (step w e)).
Proof.
  intros Hl. destruct e as [c args t|c text t|c args ok|c args a|c args a|c args fails|c f|u ok];
    simpl.
  - destruct (subscribe_store c args t w) as [Hw [Hs|(wl & Hin & _ & Hs)]].
    + by apply (rows_linked_same (store w)).
    + apply (rows_linked_append (store w) _ (new_row c wl (store w))); eauto.
      intros x Hx. by rewrite Hw.
  - destruct (subscribe_dynamic_store c text t w) as [Hw [Hs|(wl & Hin & _ & Hs)]].
    + by apply (rows_linked_same (store w)).
    + apply (rows_linked_append (store w) _ (new_row c wl (store w))); eauto.
      intros x Hx. by rewrite Hw.
  - destruct (unsubscribe_store c args ok w) as [Hw [Hs|(wl & _ & _ & Hs)]].
    + by apply (rows_linked_same (store w)).
    + intros sb Hsb. rewrite Hs in Hsb. apply filter_In in Hsb as [Hsb _].
      rewrite Hw. by apply Hl.
  - destruct (openwaitlist_store c args a w) as [Hs [Hw|(x & _ & _ & _ & _ & Hw)]].
    + by apply (rows_linked_same (store w)).
    + intros sb Hsb. rewrite Hs in Hsb. destruct (Hl sb Hsb) as (y & Hy & Hid).
      exists y. rewrite Hw. split; [apply in_or_app; by left|done].
  - destruct (closewaitlist_store c args a w) as [Hs|(wl & _ & _ & _ & Hs)].
    + by rewrite Hs.
    + intros sb Hsb. rewrite Hs in Hsb. simpl in Hsb.
      apply filter_In in Hsb as [Hsb Hne]. destruct (Hl sb Hsb) as (y & Hy & Hid).
      exists y. rewrite Hs. simpl. split; [|done].
      apply filter_In. split; [done|]. by rewrite Hid.
  - by rewrite (proj1 (broadcast_world c args fails w)).
  - destruct (start_store c f w) as [Hw [Hs|(wl & Hin & Hs)]].
    + by apply (rows_linked_same (store w)).
    + apply (rows_linked_append (store w) _ (new_row c wl (store w))); eauto.
      intros x Hx. by rewrite Hw.
  - by rewrite expire_store.
Qed.

Lemma run_rows_linked evs w : rows_linked (store w) -> rows_linked (store (run evs w)).
Proof.
  unfold run. revert w. induction evs as [|e evs IH]; intros w Hu; [done|].
  simpl. apply IH, step_rows_linked, Hu.
Qed.

Lemma checkUserRegistration_verified c t w :
  verifiedUsers (reg w) ⊆ verifiedUsers (reg (snd (checkUserRegistration c t w))).
Proof.
  unfold checkUserRegistration. case_decide; [done|].
  destruct (registrationMessages (reg w) !! from_id c); [done|].
  destruct (probe t); simpl; [set_solver| |done].
  destruct (prompt_reply t); simpl; done.
Qed.

Lemma subscribe_tail_verified c wl pn t w :
  verifiedUsers (reg w) ⊆ verifiedUsers (reg (subscribe_tail c wl pn t w)).
Proof.
  unfold subscribe_tail.
  destruct (findSubscriber (wl_id wl) (from_id c) (store w)); [done|].
  destruct (if chat_private c then (true, w) else checkUserRegistration c t w)
    as [b w1] eqn:E.
  assert (H : verifiedUsers (reg w) ⊆ verifiedUsers (reg w1)).
  { destruct (chat_private c); [by injection E as _ <-|].
    pose proof (checkUserRegistration_verified c t w) as H. by rewrite E in H. }
  destruct b; [rewrite react_or_reply_reg|]; simpl; exact H.
Qed.

Lemma step_verified w e : verifiedUsers (reg w) ⊆ verifiedUsers (reg (step w e)).
Proof.
  destruct e as [c args t|c text t|c args ok|c args a|c args a|c args fails|c f|u ok]; simpl.
  - unfold subscribe. destruct args; [done|].
    destruct (findWaitlist _ _ _); [apply subscribe_tail_verified|done].
  - unfold subscribe_dynamic. destruct (match_dynamic text); [|done].
    destruct (resolve_dynamic _ _ _); [apply subscribe_tail_verified|done].
  - by rewrite (proj2 (unsubscribe_shape c args ok w)).
  - by rewrite (proj2 (openwaitlist_shape c args a w)).
  - by rewrite (proj2 (closewaitlist_shape c args a w)).
  - by rewrite (proj2 (broadcast_world c args fails w)).
  - unfold start. destruct (chat_private c); [|done].
    set (w1 := add_verified (from_id c) w).
    assert (H1 : verifiedUsers (reg w) ⊆ verifiedUsers (reg w1)) by (simpl; set_solver).
    set (w2 := match registrationMessages (reg w1) !! from_id c with
               | Some mi => del_regmsg (from_id c)
                              (emit (DeleteMessage (mi_chatId mi) (mi_messageId mi)) w1)
               | None => w1 end).
    assert (H2 : verifiedUsers (reg w2) = verifiedUsers (reg w1))
      by (unfold w2; destruct (registrationMessages (reg w1) !! from_id c); reflexivity).
    destruct (pendingSubscriptions (reg w2) !! from_id c) as [ps|]; simpl.
    + rewrite (proj1 (complete_pending_shape c ps f w2)). by rewrite H2.
    + by rewrite H2.
  - unfold expire. destruct (registrationMessages (reg w) !! u); [|done].
    destruct ok; simpl; done.
Qed.

(** No sequence of updates makes two waitlists of one chat share a name:
    [/openwaitlist] refuses a name that exists in the chat, and no other
    handler adds waitlists. *)
Theorem waitlist_names_stay_unique (evs : list Event) (w : World) :
  names_unique (store w) -> names_unique (store (run evs w)).
Proof. apply run_names_unique. Qed.

(** No sequence of updates leaves a subscriber row whose waitlist is gone:
    rows are only created for a waitlist just found in the store, and
    [/closewaitlist] deletes a waitlist's rows together with it. *)
Theorem subscriber_rows_stay_linked (evs : list Event) (w : World) :
  rows_linked (store w) -> rows_linked (store (run evs w)).
Proof. apply run_rows_linked. Qed.

(** No update removes a user from [verifiedUsers]: once verified, a user
    stays verified for the life of the process. *)
Theorem verified_users_only_grow (evs : list Event) (w : World) :
  verifiedUsers (reg w) ⊆ verifiedUsers (reg (run evs w)).
Proof.
  unfold run. revert w. induction evs as [|e evs IH]; intros w; simpl; [done|].
  etransitivity; [apply (step_verified w e)|apply IH].
Qed.

(** ** Argument parsing of [/broadcast] and [/openwaitlist] *)

Lemma split_sp_app_space (a b : string) :
  split_sp (a ++ String " " b) = split_sp a ++ split_sp b.
Proof.
  induction a as [|x r IH]; [reflexivity|]. simpl.
  destruct (Ascii.eqb x " "); [by rewrite IH|].
  rewrite IH. pose proof (split_sp_nonempty r) as Hne.
  destruct (split_sp r) as [|y ys]; [congruence|]. reflexivity.
Qed.

Lemma command_args_split (cmd rest : string) :
  has_char " " cmd = false -> command_args (cmd ++ " " ++ rest) = split_sp rest.
Proof.
  intros H. unfold command_args. change (" " ++ rest)%string with (String " " rest).
  by rewrite split_sp_command by exact H.
Qed.

Lemma find_index_app {A} (p : A -> bool) (l1 l2 : list A) :
  (forall x, In x l1 -> p x = false) ->
  find_index p (l1 ++ l2) = option_map (Nat.add (length l1)) (find_index p l2).
Proof.
  induction l1 as [|y l1 IH]; intros H; simpl.
  - by destruct (find_index p l2).
  - rewrite H by (left; reflexivity). rewrite IH by (intros x Hx; apply H; by right).
    by destruct (find_index p l2).
Qed.

Lemma split_sp_has_char (s x : string) (a : ascii) :
  In x (split_sp s) -> has_char a x = true -> has_char a s = true.
Proof.
  revert x. induction s as [|b r IH]; intros x Hx Ha; simpl in Hx |- *.
  - destruct Hx as [<-|[]]. discriminate.
  - destruct (Ascii.eqb b " ") eqn:Eb.
    + destruct Hx as [<-|Hx]; [discriminate|]. rewrite (IH x Hx Ha). apply orb_true_r.
    + destruct (split_sp r) as [|y ys] eqn:Er.
      * exfalso. by apply (split_sp_nonempty r).
      * destruct Hx as [<-|Hx].
        -- simpl in Ha. apply orb_true_iff in Ha as [Ha|Ha]; [by rewrite Ha|].
           rewrite (IH y (or_introl eq_refl) Ha). apply orb_true_r.
        -- rewrite (IH x (or_intror Hx) Ha). apply orb_true_r.
Qed.

Lemma starts_with_at_has_char (x : string) : starts_with_at x = true -> has_char "@" x = true.
Proof.
  destruct x as [|b r]; [discriminate|]. unfold starts_with_at. cbn [String.prefix has_char].
  destruct (ascii_dec "@" b) as [Hb|]; [|discriminate]. subst b. reflexivity.
Qed.

Lemma starts_with_at_mention (o : string) : starts_with_at (String "@" o) = true.
Proof.
  unfold starts_with_at. cbn [String.prefix].
  destruct (ascii_dec "@" "@") as [_|n]; [by destruct o|congruence].
Qed.

Lemma openwaitlist_text_aux (c : Ctx) (cmd N o : string) (w : World) :
  has_char " " cmd = false -> has_char " " o = false ->
  (forall x, In x (split_sp N) -> starts_with_at x = false) ->
  findWaitlist N (chat_id c) (store w) = None ->
  openwaitlist c (command_args (cmd ++ " " ++ N ++ " @" ++ o)) true w =
  emit (Reply (chat_id c) WaitlistOpened)
    (set_store (createWaitlist N (chat_id c) o (store w)) w).
Proof.
  intros Hc Ho Hat Hf. rewrite command_args_split by exact Hc.
  change (" @" ++ o)%string with (String " " (String "@" o)).
  rewrite split_sp_app_space, (split_sp_space_free (String "@" o)) by exact Ho.
  unfold openwaitlist. simpl negb. cbv iota beta.
  rewrite find_index_app by exact Hat.
  simpl. rewrite starts_with_at_mention. simpl.
  assert (Hlen : (1 <= length (split_sp N))%nat).
  { pose proof (split_sp_nonempty N). destruct (split_sp N); [congruence|simpl; lia]. }
  replace (length (split_sp N ++ [String "@" o]) <? 2)%nat with false
    by (symmetry; apply Nat.ltb_ge; rewrite length_app; simpl; lia).
  rewrite Nat.add_0_r, firstn_app, Nat.sub_diag, firstn_all. simpl.
  rewrite app_nil_r, join_split_sp.
  rewrite app_nth2, Nat.sub_diag by lia. simpl. rewrite Hf. reflexivity.
Qed.

(** [/openwaitlist <name> @<owner>] opens a waitlist named exactly [name]
    (the words before the first word starting with ['@'], spaces kept) in
    the chat, owned by [owner] without its ['@'], when the caller is an
    admin and the chat has no waitlist of that name. *)
Theorem openwaitlist_from_text (c : Ctx) (cmd N o : string) (w : World) :
  has_char " " cmd = false -> has_char " " o = false ->
  (forall x, In x (split_sp N) -> starts_with_at x = false) ->
  findWaitlist N (chat_id c) (store w) = None ->
  openwaitlist c (command_args (cmd ++ " " ++ N ++ " @" ++ o)) true w =
  emit (Reply (chat_id c) WaitlistOpened)
    (set_store (createWaitlist N (chat_id c) o (store w)) w).
Proof. apply openwaitlist_text_aux. Qed.

(** When the first argument of [/openwaitlist] starts with ['@'], the
    waitlist is opened with the empty name (the words after the mention
    are ignored), provided the chat has no waitlist with the empty name. *)
Theorem openwaitlist_leading_mention (c : Ctx) (a : string) (rest : list string) (w : World) :
  starts_with_at a = true -> rest <> [] ->
  findWaitlist EmptyString (chat_id c) (store w) = None ->
  openwaitlist c (a :: rest) true w =
  emit (Reply (chat_id c) WaitlistOpened)
    (set_store (createWaitlist EmptyString (chat_id c) (drop_first_char a) (store w)) w).
Proof.
  intros Ha Hr Hf. unfold openwaitlist. simpl. rewrite Ha. simpl.
  destruct rest as [|b rest]; [congruence|]. simpl. rewrite Hf. reflexivity.
Qed.

(** [/broadcast] takes only the first word as the product name, so a
    waitlist whose name contains a space can never be broadcast to: if
    every waitlist the sender owns has a space in its name, [/broadcast]
    sends no DM and only replies. *)
Theorem broadcast_spaced_names_unreachable (c : Ctx) (text : string) (fails : nat -> bool)
    (w : World) :
  (forall wl, In wl (waitlists (store w)) -> from_username c = Some (ownerUsername wl) ->
     has_char " " (name wl) = true) ->
  exists r, broadcast c (command_args text) fails w = emit (Reply (chat_id c) r) w.
Proof.
  intros H. unfold broadcast.
  destruct (chat_private c); simpl; [|eauto].
  destruct (command_args text) as [|p [|m rest]] eqn:Ea; try eauto.
  assert (Hsp : has_char " " p = false).
  { unfold command_args in Ea. apply (split_sp_pieces text).
    destruct (split_sp text) as [|x xs]; simpl in Ea; [discriminate|].
    rewrite Ea. right; left; reflexivity. }
  destruct (findOwnedWaitlist p (from_username c) (store w)) as [wl|] eqn:Ef; [|eauto].
  apply findOwnedWaitlist_some in Ef as (Hin & Hn & Ho).
  destruct (from_username c) as [u|] eqn:Eu; simpl; [|eauto].
  destruct (String.eqb_spec u EmptyString); simpl; [eauto|].
  exfalso. pose proof (H wl Hin) as Hs. rewrite (Ho u eq_refl) in Hs.
  specialize (Hs eq_refl). congruence.
Qed.

(** ** Round trips through the store *)



Lemma filter_negb_nil {A} (p : A -> bool) (l : list A) :
  List.filter p l = [] -> List.filter (fun x => negb (p x)) l = l.
Proof.
  induction l as [|a l IH]; intros H; [reflexivity|]. simpl in *.
  destruct (p a); [discriminate|]. simpl. f_equal. apply IH, H.
Qed.

Lemma filter_after_negb {A} (p : A -> bool) (l : list A) :
  List.filter p (List.filter (fun x => negb (p x)) l) = [].
Proof.
  induction l as [|a l IH]; [reflexivity|]. simpl.
  destruct (p a) eqn:E; simpl; [exact IH|]. rewrite E. exact IH.
Qed.

Lemma findWaitlist_waitlists nm ch s s' :
  waitlists s' = waitlists s -> findWaitlist nm ch s' = findWaitlist nm ch s.
Proof. unfold findWaitlist. by intros ->. Qed.

Lemma waitlist_of_waitlists sb s s' :
  waitlists s' = waitlists s -> waitlist_of sb s' = waitlist_of sb s.
Proof. unfold waitlist_of. by intros ->. Qed.

Lemma waitlist_of_id sb s wl : waitlist_of sb s = Some wl -> wl_id wl = waitlistId sb.
Proof.
  unfold waitlist_of, findFirst. intros Hf. apply find_some in Hf as [_ Hf].
  by apply Z.eqb_eq in Hf.
Qed.

(** A verified user's group [/subscribe] to a waitlist they are not on
    creates their row at once. *)
Lemma subscribe_verified_group c args t w wl :
  chat_private c = false -> from_id c ∈ verifiedUsers (reg w) -> args <> [] ->
  findWaitlist (join " " args) (chat_id c) (store w) = Some wl ->
  findSubscriber (wl_id wl) (from_id c) (store w) = None ->
  subscribe c args t w =
  react_or_reply c SubscribedFallback (reaction_ok t)
    (set_store (createSubscriber (wl_id wl) (from_id c) (or_empty (from_username c)) (store w)) w).
Proof.
  intros Hp Hv Ha Hf Hs. unfold subscribe.
  destruct args as [|a r]; [congruence|]. rewrite Hf.
  unfold subscribe_tail. rewrite Hs, Hp.
  unfold checkUserRegistration. case_decide; [reflexivity|contradiction].
Qed.

(** A group [/unsubscribe] naming a waitlist of the chat deletes the
    caller's rows for it and reacts. *)
Lemma unsubscribe_group c args ok w wl :
  chat_private c = false -> args <> [] ->
  findWaitlist (join " " args) (chat_id c) (store w) = Some wl ->
  unsubscribe c args ok w =
  react_or_reply c RemovedFallback ok
    (set_store (deleteSubscribers
       (fun sb => Z.eqb (waitlistId sb) (wl_id wl) && Z.eqb (userId sb) (from_id c))
       (store w)) w).
Proof.
  intros Hp Ha Hf. unfold unsubscribe.
  destruct args as [|a r]; [congruence|]. rewrite Hp, Hf. reflexivity.
Qed.

Lemma react_or_reply_effects c k ok w :
  effects (react_or_reply c k ok w) =
  effects w ++ SetReaction (chat_id c) (message_id c) :: (if ok then [] else [Reply (chat_id c) k]).
Proof. unfold react_or_reply. destruct ok; simpl; [done|]. by rewrite <- app_assoc. Qed.

(** A verified user who subscribes in a group and then unsubscribes there
    with the same arguments leaves the tables as they were; only the row id
    counter has moved on. *)
Theorem subscribe_unsubscribe_roundtrip (c : Ctx) (args : list string) (t : Transport)
    (ok : bool) (w : World) (wl : Waitlist) :
  chat_private c = false ->
  from_id c ∈ verifiedUsers (reg w) ->
  args <> [] ->
  findWaitlist (join " " args) (chat_id c) (store w) = Some wl ->
  findSubscriber (wl_id wl) (from_id c) (store w) = None ->
  subscribers (store (subscribe c args t w)) = subscribers (store w) ++ [new_row c wl (store w)] /\
  store (unsubscribe c args ok (subscribe c args t w)) =
    {| waitlists := waitlists (store w); subscribers := subscribers (store w);
       next_wl_id := next_wl_id (store w); next_sub_id := next_sub_id (store w) + 1 |}.
Proof.
  intros Hp Hv Ha Hf Hs.
  rewrite (subscribe_verified_group c args t w wl Hp Hv Ha Hf Hs).
  split; [rewrite react_or_reply_store; reflexivity|].
  rewrite (unsubscribe_group c args ok _ wl Hp Ha).
  - rewrite !react_or_reply_store. unfold deleteSubscribers, createSubscriber, set_store.
    cbn [store waitlists subscribers next_wl_id next_sub_id]. f_equal.
    rewrite List.filter_app. simpl. rewrite !Z.eqb_refl. simpl. rewrite app_nil_r.
    apply filter_negb_nil. apply findSubscriber_none in Hs. exact Hs.
  - rewrite react_or_reply_store. rewrite <- Hf. apply findWaitlist_waitlists. reflexivity.
Qed.


(** A group [/unsubscribe] naming a waitlist of the chat leaves the caller
    no row for it, keeps every other row, and always reacts with 👍 (with
    the text fallback when the reaction fails), also when the caller had no
    row to delete. *)
Theorem unsubscribe_group_removes_pair (c : Ctx) (args : list string) (ok : bool) (w : World)
    (wl : Waitlist) :
  chat_private c = false -> args <> [] ->
  findWaitlist (join " " args) (chat_id c) (store w) = Some wl ->
  pair_rows (wl_id wl) (from_id c) (store (unsubscribe c args ok w)) = [] /\
  (forall sb, In sb (subscribers (store w)) ->
     waitlistId sb <> wl_id wl \/ userId sb <> from_id c ->
     In sb (subscribers (store (unsubscribe c args ok w)))) /\
  effects (unsubscribe c args ok w) =
    effects w ++ SetReaction (chat_id c) (message_id c) ::
      (if ok then [] else [Reply (chat_id c) RemovedFallback]).
Proof.
  intros Hp Ha Hf. rewrite (unsubscribe_group c args ok w wl Hp Ha Hf).
  rewrite react_or_reply_store, react_or_reply_effects. simpl.
  split; [|split; [|reflexivity]].
  - unfold pair_rows. simpl. apply filter_after_negb.
  - intros sb Hin Hne. apply filter_In. split; [exact Hin|].
    apply negb_true_iff, andb_false_iff.
    destruct Hne as [Hne|Hne]; [left|right]; by apply Z.eqb_neq.
Qed.

(** In a direct chat [/unsubscribe <name>] deletes the rows of one
    waitlist only: a user subscribed to two waitlists of that name (in two
    groups) is still subscribed to one of them afterwards. *)
Theorem unsubscribe_dm_removes_one_waitlist (c : Ctx) (args : list string) (ok : bool)
    (w : World) (sb1 sb2 : Subscriber) (wl1 wl2 : Waitlist) :
  In sb1 (subscribers (store w)) -> In sb2 (subscribers (store w)) ->
  userId sb1 = from_id c -> userId sb2 = from_id c ->
  waitlistId sb1 <> waitlistId sb2 ->
  waitlist_of sb1 (store w) = Some wl1 -> waitlist_of sb2 (store w) = Some wl2 ->
  name wl1 = join " " args -> name wl2 = join " " args ->
  exists sb wl, In sb (subscribers (store (unsubscribe c args ok w))) /\
    userId sb = from_id c /\ waitlist_of sb (store (unsubscribe c args ok w)) = Some wl /\
    name wl = join " " args.
Proof.
  intros H1 H2 U1 U2 Hne W1 W2 N1 N2.
  destruct (unsubscribe_store c args ok w) as [Hw [Hs|(wl & _ & _ & Hs)]];
    rewrite Hs; setoid_rewrite (waitlist_of_waitlists _ _ _ Hw).
  - exists sb1, wl1. done.
  - destruct (Z.eq_dec (waitlistId sb1) (wl_id wl)) as [E|E].
    + exists sb2, wl2. split; [|done]. apply filter_In. split; [done|].
      apply negb_true_iff, andb_false_iff. left. apply Z.eqb_neq. congruence.
    + exists sb1, wl1. split; [|done]. apply filter_In. split; [done|].
      apply negb_true_iff, andb_false_iff. left. by apply Z.eqb_neq.
Qed.

(** ** What a chat sees is decided by that chat *)













(** ** [/list] and [/mywaitlists] after a subscription change *)



(** After a group [/unsubscribe] naming a waitlist of the chat, that
    waitlist is in none of the caller's [/mywaitlists] listings (the direct
    chat one, or the one of any group). *)
Theorem unsubscribe_clears_mywaitlists (c : Ctx) (args : list string) (ok : bool) (w : World)
    (wl : Waitlist) (ch : option Z) :
  chat_private c = false -> args <> [] ->
  findWaitlist (join " " args) (chat_id c) (store w) = Some wl ->
  forall x, In x (user_subscriptions (from_id c) ch (store (unsubscribe c args ok w))) ->
    wl_id x <> wl_id wl.
Proof.
  intros Hp Ha Hf x Hx.
  rewrite (unsubscribe_group c args ok w wl Hp Ha Hf), react_or_reply_store in Hx.
  cbn [store set_store] in Hx. unfold user_subscriptions in Hx.
  apply in_flat_map in Hx as (sb & Hsb & Hx).
  unfold deleteSubscribers in Hsb. cbn [subscribers] in Hsb.
  apply filter_In in Hsb as [_ Hn].
  destruct (Z.eqb_spec (userId sb) (from_id c)) as [U|U]; [|destruct Hx].
  destruct (waitlist_of sb _) as [y|] eqn:Wy; [|destruct Hx].
  assert (Hxy : x = y).
  { destruct ch as [k|]; [destruct (chatId y =? k)|]; first [destruct Hx as [<-|[]]; reflexivity | destruct Hx]. }
  subst y. apply waitlist_of_id in Wy. rewrite Wy.
  rewrite ?U, ?Z.eqb_refl, andb_true_r in Hn. apply negb_true_iff, Z.eqb_neq in Hn. exact Hn.
Qed.


(** ** The dynamic command of a freshly opened waitlist *)


(** * Instances of the further properties *)

Lemma escapeMarkdown_injective_witness :
  escapeMarkdown "v1.2_beta" = escapeMarkdown "v1.2_beta" /\ "v1.2_beta" = "v1.2_beta".
Proof. split; [reflexivity|]. apply escapeMarkdown_injective. reflexivity. Defined.

Lemma command_args_product_name_witness :
  has_char " " "/list" = false /\
  join " " (command_args ("/list" ++ " " ++ "My  Product")) = "My  Product".
Proof.
  split; [reflexivity|].
  refine (proj2 (proj2 (command_args_product_name "/list" "My  Product" _))). settle_hyp.
Defined.

Lemma waitlist_names_stay_unique_witness :
  names_unique (store (run demo_events empty_world)).
Proof. apply waitlist_names_stay_unique. vm_compute. constructor. Defined.

Lemma subscriber_rows_stay_linked_witness :
  rows_linked (store (run demo_events empty_world)).
Proof. apply subscriber_rows_stay_linked. intros sb H. vm_compute in H. destruct H. Defined.

Lemma openwaitlist_from_text_witness :
  openwaitlist demo_admin
    (command_args ("/openwaitlist" ++ " " ++ "My Product" ++ " @" ++ "alice")) true empty_world =
  emit (Reply (chat_id demo_admin) WaitlistOpened)
    (set_store (createWaitlist "My Product" (chat_id demo_admin) "alice" (store empty_world))
       empty_world).
Proof.
  apply (openwaitlist_from_text demo_admin "/openwaitlist" "My Product" "alice" empty_world);
    try settle_hyp.
  intros x Hx. vm_compute in Hx. destruct Hx as [<-|[<-|[]]]; settle_hyp.
Defined.

Lemma openwaitlist_leading_mention_witness :
  openwaitlist demo_admin ["@alice"; "Launch"] true empty_world =
  emit (Reply (chat_id demo_admin) WaitlistOpened)
    (set_store (createWaitlist EmptyString (chat_id demo_admin) (drop_first_char "@alice")
       (store empty_world)) empty_world).
Proof.
  apply (openwaitlist_leading_mention demo_admin "@alice" ["Launch"] empty_world); settle_hyp.
Defined.

Lemma broadcast_spaced_names_unreachable_witness :
  exists r, broadcast demo_owner_dm (command_args "/broadcast My Product hello") (fun _ => false)
              (openwaitlist demo_admin ["My"; "Product"; "@alice"] true empty_world) =
            emit (Reply (chat_id demo_owner_dm) r)
              (openwaitlist demo_admin ["My"; "Product"; "@alice"] true empty_world).
Proof.
  apply broadcast_spaced_names_unreachable.
  intros wl Hin _. vm_compute in Hin. destruct Hin as [<-|[]]. settle_hyp.
Defined.

Lemma subscribe_unsubscribe_roundtrip_witness :
  store (unsubscribe demo_user_group ["Launch"] true
     (subscribe demo_user_group ["Launch"] probe_refused
        (unsubscribe demo_user_group ["Launch"] true demo_subscribed))) =
  {| waitlists := waitlists (store (unsubscribe demo_user_group ["Launch"] true demo_subscribed));
     subscribers := subscribers (store (unsubscribe demo_user_group ["Launch"] true demo_subscribed));
     next_wl_id := next_wl_id (store (unsubscribe demo_user_group ["Launch"] true demo_subscribed));
     next_sub_id := next_sub_id (store (unsubscribe demo_user_group ["Launch"] true demo_subscribed)) + 1 |}.
Proof.
  refine (proj2 (subscribe_unsubscribe_roundtrip demo_user_group ["Launch"] probe_refused true
    (unsubscribe demo_user_group ["Launch"] true demo_subscribed) demo_launch _ _ _ _ _));
    settle_hyp.
Defined.


Lemma unsubscribe_group_removes_pair_witness :
  pair_rows (wl_id demo_launch) 7
    (store (unsubscribe demo_user_group ["Launch"] false demo_subscribed)) = [].
Proof.
  refine (proj1 (unsubscribe_group_removes_pair demo_user_group ["Launch"] false demo_subscribed
    demo_launch _ _ _)); settle_hyp.
Defined.

Lemma unsubscribe_dm_removes_one_waitlist_witness :
  exists sb wl, In sb (subscribers (store (unsubscribe demo_user_dm ["Launch"] true demo_two_launches))) /\
    userId sb = from_id demo_user_dm /\
    waitlist_of sb (store (unsubscribe demo_user_dm ["Launch"] true demo_two_launches)) = Some wl /\
    name wl = join " " ["Launch"].
Proof.
  apply (unsubscribe_dm_removes_one_waitlist demo_user_dm ["Launch"] true demo_two_launches
    {| sub_id := 1; waitlistId := 1; userId := 7; username := "uu" |}
    {| sub_id := 2; waitlistId := 2; userId := 7; username := "uu" |}
    demo_launch
    {| wl_id := 2; name := "Launch"; chatId := demo_group2; ownerUsername := "alice" |});
    first [settle_hyp | vm_compute; left; reflexivity | vm_compute; right; left; reflexivity].
Defined.



Lemma unsubscribe_clears_mywaitlists_witness :
  ~ In demo_launch (user_subscriptions 7 None
      (store (unsubscribe demo_user_group ["Launch"] true demo_two_launches))).
Proof.
  intros H.
  refine (unsubscribe_clears_mywaitlists demo_user_group ["Launch"] true demo_two_launches
    demo_launch None _ _ _ demo_launch H eq_refl); settle_hyp.
Defined.

